(** * sem: the simulation runner (sem/runner.py) and the result store

    A shallow embedding of [SimulationRunner] from [sem/runner.py]:
    construction (library environment, script resolution), the build
    progress generator, parameter discovery and [run_simulations];
    followed by the result store and the execution engine as the
    specification describes them.  Python values are modelled as follows.

    - [str] and [bytes] are [string], with ASCII text; [len], [in],
      [startswith], [strip] and [' '.join] are written out below.
    - a [dict] is an insertion-ordered association list with unique keys;
      the dictionaries that [run_simulations] receives and creates are
      objects of a store ([gmap loc pdict]) and are named by their
      location, so that two references to one object can be told from
      two equal objects.
    - [float] is the primitive binary64 type; [int] is [Z].
    - the build progress generator, which depends on nothing but the build
      process, is the finite sequence of its yields with how it ends;
      [run_simulations] is a function of the state of the world, given
      for one [next()] and for a consumer that iterates to the end.
    - the world of the runner (the store, the file system, the processes
      started, the draws of [uuid.uuid4] and the readings of the clock)
      is a [state] threaded through the effectful functions; what the
      external programs do is given by oracles. *)

From Stdlib Require Import ZArith QArith String Ascii List PrimFloat Lia.
From Stdlib Require Import Numbers.DecimalString Sorting.Sorted.
From stdpp Require Import gmap strings list.

Local Open Scope string_scope.
Local Open Scope list_scope.

(** ** Python strings *)

Module Py.

(** [len(s)] *)
Definition len (s : string) : nat := String.length s.

(** [s.startswith(p)] *)
Fixpoint startswith (s p : string) : bool :=
  match p, s with
  | EmptyString, _ => true
  | String a p', String b s' => if Ascii.eqb a b then startswith s' p' else false
  | String _ _, EmptyString => false
  end.

(** [sub in s] on strings: [sub] occurs in [s] at some offset. *)
Fixpoint str_in (sub s : string) : bool :=
  if startswith s sub then true
  else match s with
       | EmptyString => false
       | String _ s' => str_in sub s'
       end.

(** The last character of a string, if any. *)
Fixpoint last_char (s : string) : option ascii :=
  match s with
  | EmptyString => None
  | String a EmptyString => Some a
  | String _ s' => last_char s'
  end.

(** [s.endswith(c)] for a one-character suffix. *)
Definition endswith_char (s : string) (c : ascii) : bool :=
  match last_char s with
  | Some a => Ascii.eqb a c
  | None => false
  end.

(** [sep.join(l)] *)
Fixpoint join (sep : string) (l : list string) : string :=
  match l with
  | [] => EmptyString
  | [x] => x
  | x :: r => x +:+ sep +:+ join sep r
  end.

(** [s.isascii()]: every character is below 128. *)
Fixpoint isascii (s : string) : bool :=
  match s with
  | EmptyString => true
  | String a s' => (nat_of_ascii a <? 128)%nat && isascii s'
  end.

(** [str(n)] for an [int]. *)
Definition str_of_int (n : Z) : string := NilEmpty.string_of_int (Z.to_int n).

End Py.

(** ** os.path *)

Module OsPath.

Definition sep : ascii := "/"%char.

(** [posixpath.join(a, b)]: an absolute [b] discards [a]; otherwise [b] is
    appended, with a separator unless [a] is empty or already ends in one. *)
Definition join (a b : string) : string :=
  if Py.startswith b (String sep EmptyString) then b
  else if orb (String.eqb a EmptyString) (Py.endswith_char a sep) then a +:+ b
  else a +:+ String sep b.

(** The part of [s] up to and including its last separator and the part
    after it; nothing when [s] holds no separator. *)
Fixpoint rsplit_sep (s : string) : option (string * string) :=
  match s with
  | EmptyString => None
  | String a s' =>
      match rsplit_sep s' with
      | Some (head, tail) => Some (String a head, tail)
      | None => if Ascii.eqb a sep then Some (String a EmptyString, s')
                else None
      end
  end.

(** [s.rstrip('/')] *)
Fixpoint rstrip_sep (s : string) : string :=
  match s with
  | EmptyString => EmptyString
  | String a s' =>
      match rstrip_sep s' with
      | EmptyString => if Ascii.eqb a sep then EmptyString
                       else String a EmptyString
      | r => String a r
      end
  end.

(** [posixpath.split(p)]: the head loses its trailing separators unless
    it is made of separators only. *)
Definition split (p : string) : string * string :=
  match rsplit_sep p with
  | None => (EmptyString, p)
  | Some (head, tail) =>
      (match rstrip_sep head with
       | EmptyString => head
       | stripped => stripped
       end, tail)
  end.

End OsPath.

(** ** Exceptions raised by the runner *)

(** A Python dictionary of command-line parameters: insertion ordered. *)
Inductive scalar : Type :=
  | PInt (n : Z)
  | PStr (s : string)
  | PBool (b : bool).

Abbreviation pdict := (list (string * scalar)).

(** The exceptions of [runner.py].  The two [Exception(...)] sites
    interpolate values into a fixed message; the constructor keeps the
    interpolated values. *)
Inductive exn : Type :=
  | ValueError (msg : string)
      (* "Cannot find %s script" *)
  | ZeroDivisionError
  | CompilationError (stderr stdout : string)
      (* "Compilation ended with an error.\nSTDERR\n%s\nSTDOUT\n%s" *)
  | SimulationError (params : pdict) (stderr stdout : string)
                    (complete_command : string)
      (* "Simulation exited with an error.\nParams: %s\n\nStderr: %s\n
          Stdout: %s\nUse this command to reproduce:\n%s" *)
  | CalledProcessError (returncode : Z).

Inductive result (A : Type) : Type :=
  | Ok (a : A)
  | Raise (e : exn).
Arguments Ok {A} a.
Arguments Raise {A} e.

(** ** SimulationRunner.__init__ *)

Module Init.

(** [self.environment], lines 36-53.  In the non-optimized branch the
    two-entry [library_path] is computed and then not used. *)
Definition environment (path : string) (optimized : bool)
  : list (string * string) :=
  if optimized then
    let library_path :=
      OsPath.join path "build/optimized" +:+ ":" +:+
      OsPath.join path "build/optimized/lib" in
    [("LD_LIBRARY_PATH", library_path); ("DYLD_LIBRARY_PATH", library_path)]
  else
    let library_path :=
      OsPath.join path "build" +:+ ":" +:+ OsPath.join path "build/lib" in
    [("LD_LIBRARY_PATH", OsPath.join path "build");
     ("DYLD_LIBRARY_PATH", OsPath.join path "build")].

(** [build_status_path], lines 60-65. *)
Definition build_status_path (path : string) (optimized : bool) : string :=
  if optimized then OsPath.join path "build/optimized/build-status.py"
  else OsPath.join path "build/build-status.py".

(** One entry of [matches] / [match_percentages]. *)
Record script_match : Type := {
  m_name : string;
  m_path : string
}.

Section Resolve.

(** [os.path.abspath] depends on the current directory of the caller. *)
Variable abspath : string -> string.

(** [matches], lines 81-84: the runnable programs whose name contains the
    script name, in the order of [ns3_runnable_programs]. *)
Definition matches (path script : string) (programs : list string)
  : list script_match :=
  map (fun program =>
         {| m_name := program;
            m_path := abspath (OsPath.join path program) |})
      (List.filter (fun program => Py.str_in script program) programs).

(** ['percentage': len(self.script)/len(x['name'])], line 94.  True
    division of two lengths; an empty name divides by zero.  The quotient
    is kept exact: binary64 rounding is monotone and separates the
    quotients of lengths below 2^52, so the comparison made by [max] is
    the comparison of the exact quotients. *)
Definition percentage (script : string) (x : script_match) : result Q :=
  match Py.len (m_name x) with
  | O => Raise ZeroDivisionError
  | S n => Ok (Z.of_nat (Py.len script) # Pos.of_succ_nat n)
  end.

(** [max(iterable, key=...)] on a non-empty iterable: the first element
    whose key is not exceeded by a later one.  The key of each element is
    computed as the lazy [map] is consumed. *)
Fixpoint max_from (script : string) (best : script_match) (kbest : Q)
         (l : list script_match) : result script_match :=
  match l with
  | [] => Ok best
  | x :: r =>
      match percentage script x with
      | Raise e => Raise e
      | Ok k => match Qcompare kbest k with
                | Lt => max_from script x k r
                | _ => max_from script best kbest r
                end
      end
  end.

(** Lines 86-98: [self.script_executable]. *)
Definition select_match (script : string) (ms : list script_match)
  : result script_match :=
  match ms with
  | [] => Raise (ValueError ("Cannot find " +:+ script +:+ " script"))
  | x :: r =>
      match percentage script x with
      | Raise e => Raise e
      | Ok k => max_from script x k r
      end
  end.

Definition script_executable (path script : string) (programs : list string)
  : result string :=
  match select_match script (matches path script programs) with
  | Ok m => Ok (m_path m)
  | Raise e => Raise e
  end.

End Resolve.

End Init.

(** ** The fragment of [re] used by the runner

    The three patterns of [runner.py] are sequences of literals, a
    two-way alternation of literals, single character classes and
    quantified character classes (greedy or lazy, possibly captured).
    [exec] is the backtracking matcher of [re] on that fragment: a
    quantifier tries its repetition counts in order (longest first when
    greedy, shortest first when lazy) and the first count for which the
    rest of the pattern matches wins.  Text is ASCII: [\d] is [0-9],
    [\s] is the ASCII white space of [str], [.] is any character but a
    newline unless DOTALL is set. *)

Module Re.

Inductive cls : Type :=
  | Digit            (* backslash-d *)
  | Space            (* backslash-s *)
  | Dot              (* a dot *)
  | DotAll.          (* a dot under re.DOTALL *)

Definition newline : ascii := "010"%char.

Definition is_digit (a : ascii) : bool :=
  let n := nat_of_ascii a in (48 <=? n)%nat && (n <=? 57)%nat.

Definition is_space (a : ascii) : bool :=
  let n := nat_of_ascii a in
  ((9 <=? n)%nat && (n <=? 13)%nat) || ((28 <=? n)%nat && (n <=? 32)%nat).

Definition in_cls (c : cls) (a : ascii) : bool :=
  match c with
  | Digit => is_digit a
  | Space => is_space a
  | Dot => negb (Ascii.eqb a newline)
  | DotAll => true
  end.

Inductive item : Type :=
  | Lit (s : string)                       (* literal text *)
  | Alt (a b : string)                     (* (?:a|b) *)
  | One (c : cls)                          (* a class, once *)
  | Rep (c : cls) (min : nat) (greedy captured : bool).
                       (* a class repeated at least [min] times *)

Definition pattern : Type := list item.

(** [s[n:]] and [s[:n]] *)
Fixpoint drop (n : nat) (s : string) : string :=
  match n, s with
  | S n', String _ s' => drop n' s'
  | _, _ => s
  end.

Fixpoint take (n : nat) (s : string) : string :=
  match n, s with
  | S n', String a s' => String a (take n' s')
  | _, _ => EmptyString
  end.

(** The number of leading characters of [s] that are in class [c]. *)
Fixpoint span (c : cls) (s : string) : nat :=
  match s with
  | String a s' => if in_cls c a then S (span c s') else 0%nat
  | EmptyString => 0%nat
  end.

(** The first repetition count, going down from [min + extra] to [min],
    for which the continuation succeeds. *)
Fixpoint first_down {A : Type} (k : nat -> option A) (min extra : nat)
  : option (nat * A) :=
  match k (min + extra)%nat with
  | Some r => Some ((min + extra)%nat, r)
  | None => match extra with
            | O => None
            | S e => first_down k min e
            end
  end.

(** The first repetition count, going up from [n] over [extra] further
    counts, for which the continuation succeeds. *)
Fixpoint first_up {A : Type} (k : nat -> option A) (n extra : nat)
  : option (nat * A) :=
  match k n with
  | Some r => Some (n, r)
  | None => match extra with
            | O => None
            | S e => first_up k (S n) e
            end
  end.

(** Match pattern [p] at the start of [s]: the captured groups in order
    and the text left after the match. *)
Fixpoint exec (p : pattern) (s : string) : option (list string * string) :=
  match p with
  | [] => Some ([], s)
  | Lit l :: k =>
      if Py.startswith s l then exec k (drop (Py.len l) s) else None
  | Alt a b :: k =>
      match (if Py.startswith s a then exec k (drop (Py.len a) s) else None) with
      | Some r => Some r
      | None => if Py.startswith s b then exec k (drop (Py.len b) s) else None
      end
  | One c :: k =>
      match s with
      | String a s' => if in_cls c a then exec k s' else None
      | EmptyString => None
      end
  | Rep c min greedy captured :: k =>
      let avail := span c s in
      if (avail <? min)%nat then None
      else
        let try := fun n => exec k (drop n s) in
        match (if greedy then first_down try min (avail - min)
               else first_up try min (avail - min)) with
        | Some (n, (groups, rest)) =>
            Some ((if captured then [take n s] else []) ++ groups, rest)
        | None => None
        end
  end.

(** [re.search(p, s)]: the match at the leftmost offset that has one. *)
Fixpoint search (p : pattern) (s : string) : option (list string * string) :=
  match exec p s with
  | Some r => Some r
  | None => match s with
            | EmptyString => None
            | String _ s' => search p s'
            end
  end.

(** [re.findall(p, s)]: the groups of the successive non-overlapping
    matches, scanning left to right.  [skip] counts the characters of
    the last match that are still to be passed over.  (None of the
    runner's patterns matches the empty string.) *)
Fixpoint findall_from (p : pattern) (skip : nat) (s : string)
  : list (list string) :=
  match skip with
  | S k =>
      match s with
      | EmptyString => []
      | String _ s' => findall_from p k s'
      end
  | O =>
      match exec p s with
      | Some (groups, rest) =>
          groups ::
          match s with
          | EmptyString => []
          | String _ s' =>
              findall_from p (Py.len s - Py.len rest - 1) s'
          end
      | None =>
          match s with
          | EmptyString => []
          | String _ s' => findall_from p 0 s'
          end
      end
  end.

(** With a single group, [findall] returns the list of its texts. *)
Definition findall1 (p : pattern) (s : string) : list string :=
  map (fun groups => match groups with
                     | g :: _ => g
                     | [] => EmptyString
                     end)
      (findall_from p 0 s).

(** The pattern of line 180: an opening bracket, optional white space,
    a captured lazy run of digits, a slash, a captured greedy run of
    digits, a closing bracket, the rest of the line. *)
Definition progress_re : pattern :=
  [Lit "["; Rep Space 0 true false; Rep Digit 1 false true; Lit "/";
   Rep Digit 1 true true; Lit "]"; Rep Dot 0 true false].

(** The pattern of lines 199-201, compiled with [re.DOTALL]: anything,
    [Program], a white space, [Options] or [Arguments], a colon, a
    captured greedy run of anything, [General], a white space,
    [Arguments], anything. *)
Definition options_re : pattern :=
  [Rep DotAll 0 true false; Lit "Program"; One Space;
   Alt "Options" "Arguments"; Lit ":"; Rep DotAll 0 true true;
   Lit "General"; One Space; Lit "Arguments"; Rep DotAll 0 true false].

(** The pattern of line 205, compiled with [re.MULTILINE] (it has no
    anchors, so the flag has no effect): a greedy run within the line,
    two dashes, a captured lazy run, a colon, the rest of the line. *)
Definition args_re : pattern :=
  [Rep Dot 0 true false; Lit "--"; Rep Dot 0 false true; Lit ":";
   Rep Dot 0 true false].



(** Every character of [s] is in class [c]. *)
Fixpoint all_in (c : cls) (s : string) : bool :=
  match s with
  | EmptyString => true
  | String a s' => in_cls c a && all_in c s'
  end.

(** What it means for the text [m] to match the pattern [p] with the
    captured groups [groups], without reference to the order in which the
    matcher tries the alternatives. *)
Fixpoint denote (p : pattern) (m : string) (groups : list string) : Prop :=
  match p with
  | [] => m = EmptyString /\ groups = []
  | Lit l :: k => exists m', m = l +:+ m' /\ denote k m' groups
  | Alt a b :: k =>
      exists m', (m = a +:+ m' \/ m = b +:+ m') /\ denote k m' groups
  | One c :: k =>
      exists ch m', m = String ch m' /\ in_cls c ch = true /\
                    denote k m' groups
  | Rep c min greedy captured :: k =>
      exists r m' groups',
        m = r +:+ m' /\ all_in c r = true /\ (min <= Py.len r)%nat /\
        denote k m' groups' /\
        groups = (if captured then [r] else []) ++ groups'
  end.

End Re.

(** ** Generators

    A generator whose behaviour does not depend on what its consumer does
    between two [next()] calls is the finite sequence of the values it
    yields, closed by how it ends: [StopIteration] or an exception.
    [raise StopIteration] inside a generator body ends the generator, as
    it does on the interpreters the runner targets (before PEP 479 became
    the default). *)

Inductive gen (Y : Type) : Type :=
  | Yield (y : Y) (rest : gen Y)
  | StopIteration
  | Throw (e : exn).
Arguments Yield {Y} y rest.
Arguments StopIteration {Y}.
Arguments Throw {Y} e.

(** The values a consumer receives when it iterates to the end. *)
Fixpoint yielded {Y : Type} (g : gen Y) : list Y :=
  match g with
  | Yield y rest => y :: yielded rest
  | _ => []
  end.

(** The exception that reaches a consumer iterating to the end. *)
Fixpoint raised {Y : Type} (g : gen Y) : option exn :=
  match g with
  | Yield _ rest => raised rest
  | StopIteration => None
  | Throw e => Some e
  end.

(** ** The build process and its progress: get_build_output *)

Module Build.

(** A [subprocess.Popen] object for [./waf build] with both pipes
    captured.  [bp_stdout] holds what [readline()] returns call after
    call until the pipe is at its end, where it returns [b'']; [bp_polls]
    is the number of [poll()] calls made at the end of the pipe that
    still find the process running. *)
Record process : Type := {
  bp_stdout : list string;
  bp_polls : nat;
  bp_returncode : Z;
  bp_stderr : string
}.

(** White space of [bytes.strip()]. *)
Definition is_bspace (a : ascii) : bool :=
  let n := nat_of_ascii a in
  ((9 <=? n)%nat && (n <=? 13)%nat) || (n =? 32)%nat.

Fixpoint lstrip (s : string) : string :=
  match s with
  | String a s' => if is_bspace a then lstrip s' else s
  | EmptyString => EmptyString
  end.

Fixpoint rstrip (s : string) : string :=
  match s with
  | EmptyString => EmptyString
  | String a s' =>
      match rstrip s' with
      | EmptyString => if is_bspace a then EmptyString
                       else String a EmptyString
      | r => String a r
      end
  end.

Definition strip (s : string) : string := rstrip (lstrip s).

(** [int(s)] on a run of decimal digits. *)
Fixpoint int_digits (acc : Z) (s : string) : Z :=
  match s with
  | EmptyString => acc
  | String a s' => int_digits (10 * acc + (Z.of_nat (nat_of_ascii a) - 48)) s'
  end.

Definition int (s : string) : Z := int_digits 0 s.

(** [process.stdout.read()]: what is left in the pipe. *)
Definition read (unread : list string) : string :=
  fold_right String.append EmptyString unread.

(** The end of the pipe, lines 169-175: the loop spins while [poll()]
    returns [None], then looks at the return code. *)
Fixpoint at_eof (polls : nat) (returncode : Z) (stderr : string)
  : gen (Z * Z) :=
  match polls with
  | S n => at_eof n returncode stderr
  | O => if (returncode >? 0)%Z
         then Throw (CompilationError stderr (read []))
         else StopIteration
  end.

(** The progress a line reports, lines 180-183.  The line is stripped as
    [bytes], decoded and searched as text.  On a line of ASCII
    characters decoding changes nothing and the classes of the pattern
    are those of [Re]; a line with other bytes is outside this model
    (it may fail to decode, and a decoded digit or space of another
    script would match). *)
Definition parse_line (output : string) : option (Z * Z) :=
  match Re.search Re.progress_re (strip output) with
  | Some ([current; total], _) => Some (int current, int total)
  | _ => None
  end.

(** The loop of [get_build_output], on the unread lines. *)
Fixpoint build_output (unread : list string) (polls : nat)
         (returncode : Z) (stderr : string) : gen (Z * Z) :=
  match unread with
  | [] => at_eof polls returncode stderr
  | output :: rest =>
      match output with
      | EmptyString => build_output rest polls returncode stderr
      | _ =>
          match parse_line output with
          | Some progress =>
              Yield progress (build_output rest polls returncode stderr)
          | None => build_output rest polls returncode stderr
          end
      end
  end.

Definition get_build_output (p : process) : gen (Z * Z) :=
  build_output (bp_stdout p) (bp_polls p) (bp_returncode p) (bp_stderr p).

(** Lines 141-156 of [configure_and_build]: with [show_progress] the
    progress generator is consumed to its end by [next] and the [for]
    loop, and its [StopIteration] is caught; without it the build is only
    waited for with [communicate()]. *)
Fixpoint consume {Y : Type} (g : gen Y) : result unit :=
  match g with
  | Yield _ rest => consume rest
  | StopIteration => Ok tt
  | Throw e => Raise e
  end.

Definition configure_and_build (show_progress : bool) (p : process)
  : result unit :=
  if show_progress then consume (get_build_output p) else Ok tt.

End Build.

(** ** The world of a running SimulationRunner *)

(** A node of the file system. *)
Inductive node : Type :=
  | Dir
  | File (content : string).

(** What [subprocess] is asked to start. *)
Record spawn : Type := {
  sp_argv : list string;
  sp_cwd : string;
  sp_env : list (string * string)
}.

(** What a finished child process leaves behind.  [subprocess] reports a
    child that was killed by signal [N] with the return code [-N]. *)
Record outcome : Type := {
  returncode : Z;
  stdout : string;
  stderr : string
}.

(** Locations of dictionaries in the interpreter's store. *)
Abbreviation loc := positive.

Record state : Type := {
  heap : gmap loc pdict;          (* the dictionaries that are alive *)
  fs : gmap string node;          (* the file system, by path *)
  spawned : list spawn;           (* the processes started so far *)
  uuids : nat;                    (* calls of uuid.uuid4() so far *)
  ticks : nat                     (* calls of time.time() so far *)
}.

(** A value stored under [meta]. *)
Inductive metaval : Type :=
  | MStr (s : string)
  | MFloat (x : float).

(** [current_result]: its ['params'] dictionary by reference. *)
Record sim_result : Type := {
  r_params : loc;
  r_meta : list (string * metaval)
}.

Record runner : Type := {
  path : string;
  script : string;
  environment : list (string * string);
  script_executable : string
}.

Module Dict.

(** [d[k] = v] *)
Fixpoint set {V : Type} (k : string) (v : V) (d : list (string * V))
  : list (string * V) :=
  match d with
  | [] => [(k, v)]
  | (k', v') :: r =>
      if String.eqb k k' then (k, v) :: r else (k', v') :: set k v r
  end.

(** [d.update(other)] *)
Definition update {V : Type} (d other : list (string * V))
  : list (string * V) :=
  fold_left (fun acc kv => set (fst kv) (snd kv) acc) other d.

(** [d.get(k)] *)
Fixpoint get {V : Type} (k : string) (d : list (string * V)) : option V :=
  match d with
  | [] => None
  | (k', v) :: r => if String.eqb k k' then Some v else get k r
  end.

(** [k in d] *)
Definition mem {V : Type} (k : string) (d : list (string * V)) : bool :=
  existsb (fun kv => String.eqb k (fst kv)) d.

(** A dictionary holds each key once. *)
Fixpoint wf {V : Type} (d : list (string * V)) : bool :=
  match d with
  | [] => true
  | (k, _) :: r => negb (mem k r) && wf r
  end.

End Dict.

Module Runner.

Definition quote : string := String (ascii_of_nat 34) EmptyString.

(** [str(value)] *)
Definition str (v : scalar) : string :=
  match v with
  | PInt n => Py.str_of_int n
  | PStr s => s
  | PBool true => "True"
  | PBool false => "False"
  end.

(** ['--%s=%s' % (param, value)] *)
Definition token (kv : string * scalar) : string :=
  "--" +:+ fst kv +:+ "=" +:+ str (snd kv).

(** Reading a file opened in text mode, with universal newlines: a
    carriage return followed by a line feed, and a carriage return on
    its own, are each read as one line feed. *)
Fixpoint read_text (s : string) : string :=
  match s with
  | EmptyString => EmptyString
  | String a s' =>
      if Ascii.eqb a "013"%char then
        match s' with
        | String b s'' =>
            if Ascii.eqb b "010"%char then String "010"%char (read_text s'')
            else String "010"%char (read_text s')
        | EmptyString => String "010"%char EmptyString
        end
      else String a (read_text s')
  end.

Definition read_file (files : gmap string node) (p : string) : string :=
  match files !! p with
  | Some (File c) => read_text c
  | _ => EmptyString
  end.

(** The head and tail that [os.makedirs(name)] works with: those of
    [posixpath.split(name)], or of the split of its head when the tail
    is empty. *)
Definition head_tail (name : string) : string * string :=
  let '(head, tail) := OsPath.split name in
  match tail with
  | EmptyString => OsPath.split head
  | _ => (head, tail)
  end.

(** [os.makedirs(name)] for a [name] that does not exist: the head is
    made first, with the directories above it, when it is a proper part
    of the name and does not exist; then [mkdir(name)].  [depth] bounds
    the recursion on the head, which is shorter than the name
    ([makedirs_depth] below).  Entries are told apart by their path as
    it is written, the root directory being an entry like any other;
    for a tail [.] the function returns once the head is made, and the
    entry is recorded at [name], which then resolves to the head. *)
Fixpoint makedirs (depth : nat) (name : string) (files : gmap string node)
  : gmap string node :=
  let '(head, tail) := head_tail name in
  let files1 :=
    match depth with
    | S depth' =>
        if negb (String.eqb head EmptyString) &&
           negb (String.eqb tail EmptyString)
        then match files !! head with
             | Some _ => files
             | None => makedirs depth' head files
             end
        else files
    | O => files
    end in
  <[name := Dir]> files1.

(** [if not os.path.exists(temp_dir): os.makedirs(temp_dir)], lines
    241-242. *)
Definition ensure_dir (temp_dir : string) (files : gmap string node)
  : gmap string node :=
  match files !! temp_dir with
  | Some _ => files
  | None => makedirs (String.length temp_dir) temp_dir files
  end.

(** The dictionary a reference points to. *)
Definition deref (h : gmap loc pdict) (l : loc) : pdict :=
  default [] (h !! l).

(** [l] refers to a dictionary of the store. *)
Definition valid (h : gmap loc pdict) (l : loc) : bool :=
  match h !! l with
  | Some d => Dict.wf d
  | None => false
  end.

Section Oracles.

(** The outcome of the [n]-th process this interpreter starts. *)
Variable simulator : nat -> spawn -> outcome.
(** The [n]-th value of [str(uuid.uuid4())]. *)
Variable uuid4 : nat -> string.
(** The [n]-th reading of [time.time()]. *)
Variable time_time : nat -> float.

(** [subprocess.call(argv, cwd, env, stdout=f, stderr=g)] with [f] and
    [g] freshly opened for writing at [out_path] and [err_path]. *)
Definition call (sp : spawn) (out_path err_path : string) (st : state)
  : Z * state :=
  let o := simulator (length (spawned st)) sp in
  (returncode o,
   {| heap := heap st;
      fs := <[err_path := File (stderr o)]>
              (<[out_path := File (stdout o)]> (fs st));
      spawned := spawned st ++ [sp];
      uuids := uuids st;
      ticks := ticks st |}).

(** The body of the [for] loop of [run_simulations], lines 228-274, for
    the combination at [parameter].  The calls on the file system are
    taken to succeed: a file where a directory is needed, or a missing
    permission, makes the real call raise [OSError], which is not part
    of this model. *)
Definition run_one (self : runner) (data_folder : string) (parameter : loc)
           (st : state) : result sim_result * state :=
  (* current_result = {'params': {}, 'meta': {}} and the update *)
  let params := fresh (dom (heap st)) in
  let h1 := <[params := []]> (heap st) in
  let h2 := <[params := Dict.update (deref h1 params) (deref h1 parameter)]> h1 in
  let command :=
    script_executable self :: map token (deref h2 parameter) in
  (* the dedicated folder *)
  let id := uuid4 (uuids st) in
  let meta1 := Dict.set "id" (MStr id) [] in
  let temp_dir := OsPath.join data_folder id in
  let fs1 := ensure_dir temp_dir (fs st) in
  let start := time_time (ticks st) in
  let stdout_file_path := OsPath.join temp_dir "stdout" in
  let stderr_file_path := OsPath.join temp_dir "stderr" in
  let st1 := {| heap := h2; fs := fs1; spawned := spawned st;
                uuids := S (uuids st); ticks := S (ticks st) |} in
  let '(return_code, st2) :=
    call {| sp_argv := command; sp_cwd := temp_dir;
            sp_env := environment self |}
         stdout_file_path stderr_file_path st1 in
  let end_ := time_time (ticks st2) in
  let st3 := {| heap := heap st2; fs := fs st2; spawned := spawned st2;
                uuids := uuids st2; ticks := S (ticks st2) |} in
  if (return_code >? 0)%Z then
    let complete_command :=
      "./waf --run " +:+ quote +:+
      Py.join " " (script self :: tl command) +:+ quote in
    (Raise (SimulationError (deref (heap st3) parameter)
                            (read_file (fs st3) stderr_file_path)
                            (read_file (fs st3) stdout_file_path)
                            complete_command), st3)
  else
    let meta2 := Dict.set "elapsed_time" (MFloat (PrimFloat.sub end_ start)) meta1 in
    (Ok {| r_params := params; r_meta := meta2 |}, st3).

(** The iteration that starts in state [st] on a combination whose
    dictionary is [d], piece by piece: its working directory, the process
    it starts, what that process does, the state it leaves and what the
    iteration produces.  [run_one_eq] below shows that [run_one] is made
    of these pieces. *)
Definition temp_dir_of (data_folder : string) (st : state) : string :=
  OsPath.join data_folder (uuid4 (uuids st)).

Definition spawn_of (self : runner) (data_folder : string) (st : state)
           (d : pdict) : spawn :=
  {| sp_argv := script_executable self :: map token d;
     sp_cwd := temp_dir_of data_folder st;
     sp_env := environment self |}.

Definition outcome_of (self : runner) (data_folder : string) (st : state)
           (d : pdict) : outcome :=
  simulator (length (spawned st)) (spawn_of self data_folder st d).

Definition state_after (self : runner) (data_folder : string) (st : state)
           (d : pdict) : state :=
  let temp_dir := temp_dir_of data_folder st in
  let o := outcome_of self data_folder st d in
  {| heap := <[fresh (dom (heap st)) := d]> (heap st);
     fs := <[OsPath.join temp_dir "stderr" := File (stderr o)]>
             (<[OsPath.join temp_dir "stdout" := File (stdout o)]>
                (ensure_dir temp_dir (fs st)));
     spawned := spawned st ++ [spawn_of self data_folder st d];
     uuids := S (uuids st);
     ticks := S (S (ticks st)) |}.

Definition result_of (self : runner) (data_folder : string) (st : state)
           (d : pdict) : result sim_result :=
  let o := outcome_of self data_folder st d in
  if (returncode o >? 0)%Z then
    Raise (SimulationError d (read_text (stderr o)) (read_text (stdout o))
             ("./waf --run " +:+ quote +:+
              Py.join " " (script self :: map token d) +:+ quote))
  else
    Ok {| r_params := fresh (dom (heap st));
          r_meta := [("id", MStr (uuid4 (uuids st)));
                     ("elapsed_time",
                      MFloat (PrimFloat.sub (time_time (S (ticks st)))
                                            (time_time (ticks st))))] |}.

(** [run_simulations] consumed to its end: the results yielded in order,
    the exception that ended the iteration if any, and the final state. *)
Fixpoint run_simulations (self : runner) (parameter_list : list loc)
         (data_folder : string) (st : state)
  : list sim_result * option exn * state :=
  match parameter_list with
  | [] => ([], None, st)
  | parameter :: rest =>
      match run_one self data_folder parameter st with
      | (Raise e, st') => ([], Some e, st')
      | (Ok r, st') =>
          let '(rs, e, st'') := run_simulations self rest data_folder st' in
          (r :: rs, e, st'')
      end
  end.

(** One [next()] on the generator whose remaining combinations are
    [parameter_list]. *)
Inductive next_result : Type :=
  | Yielded (r : sim_result) (remaining : list loc)
  | Exhausted
  | Failed (e : exn).

Definition next (self : runner) (parameter_list : list loc)
           (data_folder : string) (st : state) : next_result * state :=
  match parameter_list with
  | [] => (Exhausted, st)
  | parameter :: rest =>
      match run_one self data_folder parameter st with
      | (Raise e, st') => (Failed e, st')
      | (Ok r, st') => (Yielded r rest, st')
      end
  end.

(** A consumer that calls [next()] at most [n] times: what it has
    received and the state it leaves. *)
Fixpoint next_n (n : nat) (self : runner) (parameter_list : list loc)
         (data_folder : string) (st : state) : list sim_result * state :=
  match n with
  | O => ([], st)
  | S n' =>
      match next self parameter_list data_folder st with
      | (Yielded r remaining, st') =>
          let '(rs, st'') := next_n n' self remaining data_folder st' in
          (r :: rs, st'')
      | (_, st') => ([], st')
      end
  end.

(** [get_available_parameters], lines 194-208.  [check_output] raises
    [CalledProcessError] on a return code other than zero. *)
Definition get_available_parameters (self : runner) (st : state)
  : result (list string) * state :=
  let sp := {| sp_argv := [script_executable self; "--PrintHelp"];
               sp_cwd := path self;
               sp_env := environment self |} in
  let o := simulator (length (spawned st)) sp in
  let st' := {| heap := heap st; fs := fs st; spawned := spawned st ++ [sp];
                uuids := uuids st; ticks := ticks st |} in
  if negb (returncode o =? 0)%Z then (Raise (CalledProcessError (returncode o)), st')
  else
    let result := stdout o in
    let options := Re.findall1 Re.options_re result in
    match options with
    | block :: _ => (Ok (Re.findall1 Re.args_re block), st')
    | [] => (Ok [], st')
    end.

End Oracles.

(** [SimulationRunner(path, script, optimized)], given the build process
    that [configure_and_build] starts and the [ns3_runnable_programs] of
    the build status file.  Line 56 passes [path] in the position of
    [show_progress], which is true for a non-empty string. *)
Definition init (abspath : string -> string) (path_ script_ : string)
           (optimized : bool) (build : Build.process)
           (ns3_runnable_programs : list string) : result runner :=
  let env := Init.environment path_ optimized in
  match Build.configure_and_build
          (negb (String.eqb path_ EmptyString)) build with
  | Raise e => Raise e
  | Ok _ =>
      match Init.script_executable abspath path_ script_
              ns3_runnable_programs with
      | Raise e => Raise e
      | Ok exe => Ok {| path := path_; script := script_;
                        environment := env; script_executable := exe |}
      end
  end.

End Runner.

(** ** The result store, the parameter space and the execution engine

    [DatabaseManager] and [CampaignManager] are exercised by
    [tests/test_database.py] and [cli.py]; the definitions below follow
    sections 3, 4.1, 4.2 and 4.4 of the specification.  A parameter
    combination is a finite map from parameter names to scalars. *)

#[global] Instance scalar_eq_dec : EqDecision scalar.
Proof. solve_decision. Defined.

Module Campaign.

Abbreviation combination := (gmap string scalar).

Definition rngrun : string := "RngRun".

(** Modelled from the spec: the Fingerprint of section 3, "a
    ParameterCombination with the repetition-index parameter removed"
    (the database module is missing). *)
Definition fingerprint (c : combination) : combination := delete rngrun c.

(** Modelled from the spec: the Result of section 3 (the database module
    is missing). *)
Record Result : Type := {
  params : combination;
  meta_id : string;
  meta_elapsed_time : float;
  output_stdout : string;
  output_stderr : string
}.

(** Modelled from the spec: the Database of section 3, "ordered,
    append-only sequence of Results plus the CampaignConfig", of which
    the declared parameter set is kept (the database module is
    missing). *)
Record Database : Type := {
  declared_params : gset string;
  results : list Result
}.

Inductive error : Type :=
  | ValidationError
  | SimulationFailure.

(** Modelled from the spec: the results "sharing the queried
    fingerprint"; without a fingerprint the query covers every result
    (the database module is missing). *)
Definition shares (fp : option combination) (r : Result) : bool :=
  match fp with
  | None => true
  | Some f => bool_decide (fingerprint (params r) = f)
  end.

Definition sharing (db : Database) (fp : option combination) : list Result :=
  List.filter (shares fp) (results db).

(** The repetition index of a result, when it has an integer one. *)
Definition rngrun_of (r : Result) : option Z :=
  match params r !! rngrun with
  | Some (PInt n) => Some n
  | _ => None
  end.

Definition used_rngruns (db : Database) (fp : option combination) : list Z :=
  omap rngrun_of (sharing db fp).

Definition is_used (used : list Z) (z : Z) : bool :=
  existsb (Z.eqb z) used.

(** Modelled from the spec: [get_next_rngruns(count)] of section 4.2,
    "the [count] smallest non-negative integers not already used as the
    repetition index among results sharing the queried fingerprint,
    filling gaps before extending upward" (the database module is
    missing).  Candidates are tried from 0 upward; [count] free ones are
    found among the first [len(used) + count]. *)
Definition cands (n : nat) : list Z := map Z.of_nat (seq 0 n).

Definition unused (used : list Z) (z : Z) : bool := negb (is_used used z).

Definition next_free (used : list Z) (count : nat) : list Z :=
  firstn count (List.filter (unused used) (cands (length used + count))).

Definition get_next_rngruns (db : Database) (fp : option combination)
           (count : nat) : list Z :=
  next_free (used_rngruns db fp) count.

(** Modelled from the spec: [insert_result] of section 4.2, "fails with
    ValidationError unless [result.params.keys()] exactly equals declared
    params ...; otherwise appends" (the database module is missing). *)
Definition insert_result (db : Database) (r : Result)
  : Database + error :=
  if bool_decide (dom (params r) = declared_params db)
  then inl {| declared_params := declared_params db;
              results := results db ++ [r] |}
  else inr ValidationError.

(** A parameter bound "to one value or a list of candidate values". *)
Inductive binding : Type :=
  | Single (v : scalar)
  | Candidates (vs : list scalar).

Definition candidates (b : binding) : list scalar :=
  match b with
  | Single v => [v]
  | Candidates vs => vs
  end.

(** Modelled from the spec: the cartesian product of section 4.1 over the
    bound parameters (the campaign manager module is missing). *)
Fixpoint product (spec : list (string * binding)) : list combination :=
  match spec with
  | [] => [∅]
  | (k, b) :: rest =>
      flat_map (fun v => map (fun c => <[k := v]> c) (product rest))
               (candidates b)
  end.

Definition fingerprints (spec : list (string * binding)) : list combination :=
  map fingerprint (product spec).

(** The number of results stored for a fingerprint. *)
Definition existing (db : Database) (f : combination) : nat :=
  length (sharing db (Some f)).

(** Modelled from the spec: [expand(spec, runs)] of section 4.1: for each
    fingerprint of the product, [runs - existing] further repetition
    indices are requested from the store's allocator, and none "if
    [existing >= runs]" (the campaign manager module is missing). *)
Definition missing_for (db : Database) (runs : nat) (f : combination)
  : list combination :=
  if (runs <=? existing db f)%nat then []
  else map (fun i => <[rngrun := PInt i]> f)
           (get_next_rngruns db (Some f) (runs - existing db f)).

Definition expand (db : Database) (spec : list (string * binding))
           (runs : nat) : list combination :=
  flat_map (missing_for db runs) (fingerprints spec).

Section Engine.

(** What running one combination produces: [None] for a
    SimulationFailure, otherwise the id, the elapsed time and the
    captured output.  The first argument is the number of results
    already stored. *)
Variable dispatch :
  nat -> combination -> option (string * float * string * string).

(** Modelled from the spec: the loop of section 4.4, which "dispatches
    them through the bound Runner, and inserts each completed Result into
    the ResultStore as soon as it arrives" (the campaign manager module
    is missing).  A failure ends the run. *)
Fixpoint run_all (db : Database) (todo : list combination)
  : Database + error :=
  match todo with
  | [] => inl db
  | c :: rest =>
      match dispatch (length (results db)) c with
      | None => inr SimulationFailure
      | Some (id, dt, out, err) =>
          match insert_result db {| params := c; meta_id := id;
                                    meta_elapsed_time := dt;
                                    output_stdout := out;
                                    output_stderr := err |} with
          | inl db' => run_all db' rest
          | inr e => inr e
          end
      end
  end.

(** Modelled from the spec: [run_missing_simulations(param_spec, runs)]
    of section 4.4 (the campaign manager module is missing). *)
Definition run_missing_simulations (db : Database)
           (param_spec : list (string * binding)) (runs : nat)
  : Database + error :=
  run_all db (expand db param_spec runs).

End Engine.

End Campaign.

(** ** Concrete inputs

    A runner bound to [/ns-3/foo], a store with three combinations, a few
    simulators and a small campaign, used to exercise the statements
    below. *)

Module Examples.

Definition nl : string := String Re.newline EmptyString.

Definition abspath (p : string) : string := p.

Definition build_ok : Build.process :=
  {| Build.bp_stdout := ["Waf: Entering directory" +:+ nl;
                         "[ 1/2] Compiling scratch/foo.cc" +:+ nl;
                         "[2/2] Linking build/foo" +:+ nl];
     Build.bp_polls := 1;
     Build.bp_returncode := 0;
     Build.bp_stderr := EmptyString |}.

(** The same build, ended by SIGKILL after its first step. *)
Definition build_killed : Build.process :=
  {| Build.bp_stdout := ["Waf: Entering directory" +:+ nl;
                         "[ 1/2] Compiling scratch/foo.cc" +:+ nl];
     Build.bp_polls := 0;
     Build.bp_returncode := -9;
     Build.bp_stderr := "Killed" |}.

Definition programs : list string := ["foo"; "foobar"; "barfoo"].

Definition foo_runner : runner :=
  {| path := "/ns-3";
     script := "foo";
     environment := Init.environment "/ns-3" true;
     script_executable := "/ns-3/foo" |}.

Definition combination1 : pdict := [("nWifi", PInt 3); ("verbose", PBool false)].
Definition combination2 : pdict := [("nWifi", PInt 5); ("verbose", PBool true)].
Definition combination3 : pdict := [("nWifi", PInt 7); ("verbose", PBool false)].

Definition store : state :=
  {| heap := <[1%positive := combination1]>
               (<[2%positive := combination2]>
                  (<[3%positive := combination3]> ∅));
     fs := ∅;
     spawned := [];
     uuids := 0;
     ticks := 0 |}.

Definition uuid4 (n : nat) : string := "run-" +:+ Py.str_of_int (Z.of_nat n).

Definition time_time (n : nat) : float :=
  if Nat.even n then 100%float else 101.5%float.

Definition simulator_ok (n : nat) (sp : spawn) : outcome :=
  {| returncode := 0; stdout := "done" +:+ nl; stderr := EmptyString |}.

(** A simulator that dies of SIGSEGV. *)
Definition simulator_crash (n : nat) (sp : spawn) : outcome :=
  {| returncode := -11; stdout := EmptyString;
     stderr := "Segmentation fault" +:+ nl |}.

(** The second process started exits with code 1. *)
Definition simulator_second_fails (n : nat) (sp : spawn) : outcome :=
  if (n =? 1)%nat
  then {| returncode := 1; stdout := EmptyString; stderr := "abort" +:+ nl |}
  else {| returncode := 0; stdout := "done" +:+ nl; stderr := EmptyString |}.



Definition stored (i : Z) : Campaign.Result :=
  {| Campaign.params := <["dict" := PStr "/usr/share/dict/web2"]>
                          (<["RngRun" := PInt i]> ∅);
     Campaign.meta_id := "id";
     Campaign.meta_elapsed_time := 1%float;
     Campaign.output_stdout := EmptyString;
     Campaign.output_stderr := EmptyString |}.

Definition declared : gset string := {["dict"; "RngRun"]}.

(** The store of [test_get_next_rngruns] after its two insertions. *)
Definition database_2_0 : Campaign.Database :=
  {| Campaign.declared_params := declared;
     Campaign.results := [stored 2; stored 0] |}.

Definition database_empty : Campaign.Database :=
  {| Campaign.declared_params := declared; Campaign.results := [] |}.

Definition param_spec : list (string * Campaign.binding) :=
  [("dict", Campaign.Candidates [PStr "/usr/share/dict/web2";
                                 PStr "/usr/share/dict/web2a"])].

Definition dispatch (n : nat) (c : gmap string scalar)
  : option (string * float * string * string) :=
  Some (uuid4 n, 1.5%float, "done" +:+ nl, EmptyString).

Definition database_run : Campaign.Database :=
  match Campaign.run_missing_simulations dispatch database_2_0 param_spec 2 with
  | inl db => db
  | inr _ => database_2_0
  end.

End Examples.

(** ** Batches of runs and the shape of a help text

    Notions used to state what a batch leaves behind and what parameter
    discovery returns. *)

Module Batch.

Definition carriage_return : string := String "013"%char EmptyString.

(** A name that can be joined to a directory: not empty, not absolute
    and without a trailing separator. *)
Definition plain_name (id : string) : bool :=
  negb (String.eqb id EmptyString) &&
  negb (Py.startswith id "/") &&
  negb (Py.endswith_char id "/").

(** The number of combinations a consumed iteration has attempted: one
    per result, and the one that failed. *)
Definition attempted (rs : list sim_result) (e : option exn) : nat :=
  (length rs + match e with Some _ => 1 | None => 0 end)%nat.

(** The directories above [name], nearest first, as [os.makedirs] goes
    through them: the head of the name, the head of that head, and so
    on while head and tail are both non-empty. *)
Fixpoint parents (depth : nat) (name : string) : list string :=
  match depth with
  | O => []
  | S depth' =>
      let '(head, tail) := Runner.head_tail name in
      if negb (String.eqb head EmptyString) &&
         negb (String.eqb tail EmptyString)
      then head :: parents depth' head
      else []
  end.

Definition above (name : string) : list string :=
  parents (String.length name) name.


End Batch.

Module Help.
Import Re.




Definition nl : string := String newline EmptyString.








End Help.

Module MoreExamples.
Import Examples.

(** A build that stops on a compilation error. *)
Definition build_failed : Build.process :=
  {| Build.bp_stdout := ["Waf: Entering directory" +:+ nl;
                         "[ 1/2] Compiling scratch/foo.cc" +:+ nl];
     Build.bp_polls := 2;
     Build.bp_returncode := 1;
     Build.bp_stderr := "scratch/foo.cc:3: error" +:+ nl |}.

Definition progress_line : string :=
  "[ 1/2] Compiling scratch/foo.cc" +:+ nl.

(** The runnable programs of [Examples], the exact name last. *)
Definition other_programs : list string := ["barfoo"; "foobar"; "foo"].

(** A simulator that exits with code 2. *)
Definition simulator_fails (n : nat) (sp : spawn) : outcome :=
  {| returncode := 2; stdout := "started" +:+ nl; stderr := "abort" +:+ nl |}.

Definition batch : list positive := [1%positive; 2%positive; 3%positive].




End MoreExamples.

(** * Properties *)

(** ** Strings *)

#[local] Arguments String.append : simpl nomatch.

Module PyFacts.

Lemma startswith_spec s p :
  Py.startswith s p = true <-> exists post, s = p +:+ post.
Proof.
  revert s. induction p as [| a p IH]; intros s; simpl.
  - split; [intros _; now exists s | intros _; now destruct s].
  - destruct s as [| b s].
    + split; [discriminate | intros (post & H); discriminate].
    + simpl. destruct (Ascii.eqb_spec a b) as [-> | Hne].
      * rewrite IH. split; intros (post & H); exists post.
        -- now rewrite H.
        -- now injection H.
      * split; [discriminate |]. intros (post & H). injection H. congruence.
Qed.

Lemma str_in_unfold sub s :
  Py.str_in sub s =
  if Py.startswith s sub then true
  else match s with
       | EmptyString => false
       | String _ s' => Py.str_in sub s'
       end.
Proof. destruct s; reflexivity. Qed.

(** [sub in s] holds exactly when [s] is [pre + sub + post]. *)
Lemma str_in_spec sub s :
  Py.str_in sub s = true <-> exists pre post, s = pre +:+ sub +:+ post.
Proof.
  induction s as [| a s IH]; rewrite str_in_unfold.
  - destruct (Py.startswith EmptyString sub) eqn:Hs.
    + apply startswith_spec in Hs. destruct Hs as (post & Hs).
      split; [intros _; now exists EmptyString, post | reflexivity].
    + split; [discriminate |]. intros (pre & post & H).
      destruct pre; [| discriminate]. simpl in H.
      assert (Py.startswith EmptyString sub = true) as Ht
        by (apply startswith_spec; now exists post).
      congruence.
  - destruct (Py.startswith (String a s) sub) eqn:Hs.
    + apply startswith_spec in Hs. destruct Hs as (post & Hs).
      split; [intros _; now exists EmptyString, post | reflexivity].
    + rewrite IH. split.
      * intros (pre & post & ->). now exists (String a pre), post.
      * intros (pre & post & H). destruct pre as [| b pre].
        -- simpl in H.
           assert (Py.startswith (String a s) sub = true) as Ht
             by (apply startswith_spec; now exists post).
           congruence.
        -- injection H as _ H. now exists pre, post.
Qed.

Lemma append_assoc s t u : (s +:+ t) +:+ u = s +:+ t +:+ u.
Proof. induction s as [| a s IH]; simpl; [reflexivity | now rewrite IH]. Qed.

Lemma length_append s t : Py.len (s +:+ t) = (Py.len s + Py.len t)%nat.
Proof. unfold Py.len. induction s; simpl; congruence. Qed.

Lemma str_in_len sub s : Py.str_in sub s = true -> (Py.len sub <= Py.len s)%nat.
Proof.
  intros H. apply str_in_spec in H. destruct H as (pre & post & ->).
  rewrite !length_append. lia.
Qed.

Lemma append_nil_r s : s +:+ EmptyString = s.
Proof. induction s as [| a s IH]; simpl; [reflexivity | now rewrite IH]. Qed.

End PyFacts.

(** Equations between concatenations of the same pieces. *)
Ltac string_eq :=
  repeat first [rewrite PyFacts.append_assoc | progress simpl]; reflexivity.


(** ** Dictionaries *)

Module DictFacts.

Lemma mem_In {V} k (d : list (string * V)) :
  Dict.mem k d = true <-> In k (map fst d).
Proof.
  unfold Dict.mem. rewrite existsb_exists, in_map_iff. split.
  - intros (kv & Hin & Heq). apply String.eqb_eq in Heq. now exists kv.
  - intros (kv & Heq & Hin). exists kv. split; [assumption |].
    now apply String.eqb_eq.
Qed.

Lemma set_fresh {V} k (v : V) d :
  Dict.mem k d = false -> Dict.set k v d = d ++ [(k, v)].
Proof.
  induction d as [| [k' v'] r IH]; simpl; [reflexivity |].
  destruct (String.eqb k k'); simpl; [discriminate |].
  intros H. now rewrite IH.
Qed.

Lemma mem_app {V} k (d1 d2 : list (string * V)) :
  Dict.mem k (d1 ++ d2) = Dict.mem k d1 || Dict.mem k d2.
Proof. unfold Dict.mem. apply existsb_app. Qed.

(** Updating with a dictionary whose keys are new appends its items. *)
Lemma update_append {V} (other d : list (string * V)) :
  Dict.wf other = true ->
  (forall k, Dict.mem k d = true -> Dict.mem k other = false) ->
  Dict.update d other = d ++ other.
Proof.
  unfold Dict.update. revert d.
  induction other as [| [k v] r IH]; intros d Hwf Hdisj; simpl.
  - now rewrite app_nil_r.
  - simpl in Hwf. apply andb_prop in Hwf. destruct Hwf as [Hk Hr].
    apply negb_true_iff in Hk.
    assert (Dict.mem k d = false) as Hkd.
    { destruct (Dict.mem k d) eqn:E; [| reflexivity].
      specialize (Hdisj k E). simpl in Hdisj.
      now rewrite String.eqb_refl in Hdisj. }
    rewrite (set_fresh k v d Hkd), IH; [now rewrite <- app_assoc | assumption |].
    intros k' Hk'. rewrite mem_app in Hk'. apply orb_prop in Hk'.
    destruct Hk' as [Hk' | Hk'].
    + specialize (Hdisj k' Hk'). simpl in Hdisj.
      now apply orb_false_elim in Hdisj.
    + simpl in Hk'. rewrite orb_false_r in Hk'. apply String.eqb_eq in Hk'.
      now subst k'.
Qed.

(** [{}.update(d)] is a copy of [d]. *)
Lemma update_empty {V} (d : list (string * V)) :
  Dict.wf d = true -> Dict.update [] d = d.
Proof. intros H. now rewrite update_append. Qed.

End DictFacts.

(** ** os.path.join *)

Module OsPathFacts.

(** A relative name is appended to the directory. *)
Lemma join_relative a b :
  Py.startswith b "/" = false ->
  exists mid, OsPath.join a b = a +:+ mid +:+ b /\
              (mid = EmptyString \/ mid = "/").
Proof.
  intros Hb. unfold OsPath.join. change (String OsPath.sep EmptyString) with "/".
  rewrite Hb. destruct (_ || _).
  - exists EmptyString. auto.
  - exists "/". auto.
Qed.

Lemma join_inj a b b' :
  Py.startswith b "/" = false -> Py.startswith b' "/" = false ->
  OsPath.join a b = OsPath.join a b' -> b = b'.
Proof.
  intros Hb Hb'. unfold OsPath.join.
  change (String OsPath.sep EmptyString) with "/". rewrite Hb, Hb'.
  destruct (_ || _); intros H; apply String.app_inj in H; congruence.
Qed.

Lemma join_longer a b :
  Py.startswith b "/" = false -> b <> EmptyString -> OsPath.join a b <> a.
Proof.
  intros Hb Hne H. destruct (join_relative a b Hb) as (mid & Hj & _).
  rewrite Hj in H. apply (f_equal Py.len) in H.
  rewrite !PyFacts.length_append in H.
  destruct b; [congruence |]. unfold Py.len in H. simpl in H. lia.
Qed.

(** For a directory that is not empty and has no trailing separator the
    joined path is [a/b]. *)
Lemma join_plain a b :
  Py.startswith b "/" = false -> a <> EmptyString ->
  Py.endswith_char a "/" = false ->
  OsPath.join a b = a +:+ "/" +:+ b.
Proof.
  intros Hb Ha He. unfold OsPath.join.
  change (String OsPath.sep EmptyString) with "/". rewrite Hb.
  unfold OsPath.sep. rewrite He.
  destruct (String.eqb_spec a EmptyString); [congruence | reflexivity].
Qed.

Lemma rsplit_sep_Some s :
  forall head tail,
    OsPath.rsplit_sep s = Some (head, tail) ->
    s = head +:+ tail /\ head <> EmptyString.
Proof.
  induction s as [| a s IH]; intros head tail H; simpl in H; [discriminate |].
  destruct (OsPath.rsplit_sep s) as [[h t] |].
  - injection H as <- <-. destruct (IH h t eq_refl) as [-> _].
    split; [reflexivity | discriminate].
  - destruct (Ascii.eqb a OsPath.sep); [| discriminate].
    injection H as <- <-. split; [reflexivity | discriminate].
Qed.

Lemma rstrip_sep_length s :
  (Py.len (OsPath.rstrip_sep s) <= Py.len s)%nat.
Proof.
  unfold Py.len. induction s as [| a s IH]; simpl; [lia |].
  destruct (OsPath.rstrip_sep s); [destruct (Ascii.eqb a OsPath.sep) |];
    simpl in *; lia.
Qed.

(** The head and the tail of a path are parts of it. *)
Lemma split_length p head tail :
  OsPath.split p = (head, tail) ->
  (Py.len head + Py.len tail <= Py.len p)%nat.
Proof.
  unfold OsPath.split. destruct (OsPath.rsplit_sep p) as [[h t] |] eqn:E.
  - apply rsplit_sep_Some in E. destruct E as [-> _].
    pose proof (rstrip_sep_length h) as Hlen.
    rewrite PyFacts.length_append.
    destruct (OsPath.rstrip_sep h); intros H; injection H as <- <-; lia.
  - intros H. injection H as <- <-. unfold Py.len. simpl. lia.
Qed.

End OsPathFacts.

(** ** The matcher against the meaning of patterns *)

Module ReFacts.
Import Re.

Lemma take_drop n s : take n s +:+ drop n s = s.
Proof.
  revert s. induction n as [| n IH]; intros [| a s]; simpl; try reflexivity.
  now rewrite IH.
Qed.

Lemma drop_append s t : drop (Py.len s) (s +:+ t) = t.
Proof. induction s as [| a s IH]; simpl; [now destruct t | exact IH]. Qed.

Lemma take_append s t : take (Py.len s) (s +:+ t) = s.
Proof.
  induction s as [| a s IH]; simpl; [now destruct t | now rewrite IH].
Qed.

Lemma startswith_drop s l :
  Py.startswith s l = true -> s = l +:+ drop (Py.len l) s.
Proof.
  intros H. apply PyFacts.startswith_spec in H. destruct H as (post & ->).
  now rewrite drop_append.
Qed.

Lemma startswith_append l t : Py.startswith (l +:+ t) l = true.
Proof. apply PyFacts.startswith_spec. now exists t. Qed.

Lemma span_take c n s :
  (n <= span c s)%nat -> all_in c (take n s) = true /\ Py.len (take n s) = n.
Proof.
  revert s. induction n as [| n IH]; intros s Hn.
  - destruct s; simpl; auto.
  - destruct s as [| a s]; simpl in Hn; [lia |].
    destruct (in_cls c a) eqn:Ha; [| lia].
    destruct (IH s) as [H1 H2]; [lia |].
    simpl. rewrite Ha, H1. unfold Py.len in *. simpl. now rewrite H2.
Qed.

Lemma span_all_in c r t : all_in c r = true -> (Py.len r <= span c (r +:+ t))%nat.
Proof.
  induction r as [| a r IH]; simpl; [unfold Py.len; simpl; lia |].
  intros H. apply andb_prop in H. destruct H as [Ha Hr]. rewrite Ha.
  specialize (IH Hr). unfold Py.len in *. simpl. lia.
Qed.

Lemma first_down_Some {A} (k : nat -> option A) min extra n r :
  first_down k min extra = Some (n, r) ->
  k n = Some r /\ (min <= n <= min + extra)%nat.
Proof.
  induction extra as [| e IH]; simpl.
  - destruct (k (min + 0)%nat) eqn:E; [| discriminate].
    intros [= <- <-]. split; [assumption | lia].
  - destruct (k (min + S e)%nat) eqn:E.
    + intros [= <- <-]. split; [assumption | lia].
    + intros H. apply IH in H. split; [tauto | lia].
Qed.

Lemma first_up_Some {A} (k : nat -> option A) extra :
  forall n0 n r,
    first_up k n0 extra = Some (n, r) ->
    k n = Some r /\ (n0 <= n <= n0 + extra)%nat.
Proof.
  induction extra as [| e IH]; intros n0 n r; simpl.
  - destruct (k n0) eqn:E; [| discriminate].
    intros [= <- <-]. split; [assumption | lia].
  - destruct (k n0) eqn:E.
    + intros [= <- <-]. split; [assumption | lia].
    + intros H. apply IH in H. split; [tauto | lia].
Qed.

Lemma first_down_found {A} (k : nat -> option A) min extra n :
  (min <= n <= min + extra)%nat -> is_Some (k n) ->
  is_Some (first_down k min extra).
Proof.
  intros Hn Hk. induction extra as [| e IH]; simpl.
  - replace (min + 0)%nat with n by lia.
    destruct Hk as [r ->]. eauto.
  - destruct (k (min + S e)%nat) eqn:E; [eauto |].
    apply IH. destruct (Nat.eq_dec n (min + S e)) as [-> | Hne]; [| lia].
    rewrite E in Hk. destruct Hk; discriminate.
Qed.

Lemma first_up_found {A} (k : nat -> option A) extra :
  forall n0 n,
    (n0 <= n <= n0 + extra)%nat -> is_Some (k n) ->
    is_Some (first_up k n0 extra).
Proof.
  induction extra as [| e IH]; intros n0 n Hn Hk; simpl.
  - replace n0 with n by lia. destruct Hk as [r ->]. eauto.
  - destruct (k n0) eqn:E; [eauto |].
    apply (IH (S n0) n); [| assumption].
    destruct (Nat.eq_dec n n0) as [-> | Hne]; [| lia].
    rewrite E in Hk. destruct Hk; discriminate.
Qed.

(** Soundness: what the matcher accepts matches the pattern. *)
Lemma exec_sound p :
  forall s groups rest,
    exec p s = Some (groups, rest) ->
    exists m, s = m +:+ rest /\ denote p m groups.
Proof.
  induction p as [| it k IH]; intros s groups rest H.
  - injection H as <- <-. exists EmptyString. simpl. auto.
  - destruct it as [l | a b | c | c min greedy captured]; simpl in H.
    + destruct (Py.startswith s l) eqn:Hl; [| discriminate].
      apply IH in H. destruct H as (m & Hm & Hd).
      exists (l +:+ m). split.
      * rewrite PyFacts.append_assoc, <- Hm. now apply startswith_drop.
      * simpl. eauto.
    + assert ((Py.startswith s a = true /\
               exec k (drop (Py.len a) s) = Some (groups, rest)) \/
              (Py.startswith s b = true /\
               exec k (drop (Py.len b) s) = Some (groups, rest))) as Hab.
      { destruct (Py.startswith s a) eqn:Ha.
        - destruct (exec k (drop (Py.len a) s)) as [r |] eqn:E.
          + left. split; [reflexivity |]. congruence.
          + right. destruct (Py.startswith s b); [auto | discriminate].
        - right. destruct (Py.startswith s b); [auto | discriminate]. }
      destruct Hab as [[Hs Hx] | [Hs Hx]]; apply IH in Hx;
        destruct Hx as (m & Hm & Hd).
      * exists (a +:+ m). split.
        -- rewrite PyFacts.append_assoc, <- Hm. now apply startswith_drop.
        -- simpl. eauto.
      * exists (b +:+ m). split.
        -- rewrite PyFacts.append_assoc, <- Hm. now apply startswith_drop.
        -- simpl. eauto.
    + destruct s as [| ch s]; [discriminate |].
      destruct (in_cls c ch) eqn:Hc; [| discriminate].
      apply IH in H. destruct H as (m & Hm & Hd).
      exists (String ch m). split; [simpl; now rewrite Hm |].
      simpl. eauto.
    + destruct (Nat.ltb_spec (span c s) min) as [| Hmin]; [discriminate |].
      assert (exists n g', exec k (drop n s) = Some (g', rest) /\
                           (min <= n <= span c s)%nat /\
                           groups = (if captured then [take n s] else []) ++ g')
        as (n & g' & Hk & Hn & Hg).
      { destruct greedy.
        - destruct (first_down _ min (span c s - min)) as [[n [g' rest']] |] eqn:E;
            [| discriminate].
          injection H as <- <-. apply first_down_Some in E.
          exists n, g'. split; [tauto |]. split; [lia | reflexivity].
        - destruct (first_up _ min (span c s - min)) as [[n [g' rest']] |] eqn:E;
            [| discriminate].
          injection H as <- <-. apply first_up_Some in E.
          exists n, g'. split; [tauto |]. split; [lia | reflexivity]. }
      apply IH in Hk. destruct Hk as (m & Hm & Hd).
      destruct (span_take c n s) as [Hall Hlen]; [lia |].
      exists (take n s +:+ m). split.
      * rewrite PyFacts.append_assoc, <- Hm. now rewrite take_drop.
      * simpl. exists (take n s), m, g'. rewrite Hlen.
        repeat split; try assumption; lia.
Qed.

(** Completeness: on a text that starts with a match the matcher finds
    one (not necessarily the same). *)
Lemma exec_complete p :
  forall m groups rest,
    denote p m groups -> is_Some (exec p (m +:+ rest)).
Proof.
  induction p as [| it k IH]; intros m groups rest H.
  - simpl. eauto.
  - destruct it as [l | a b | c | c min greedy captured]; simpl in H.
    + destruct H as (m' & -> & Hd). simpl.
      rewrite PyFacts.append_assoc, startswith_append, drop_append.
      eapply IH, Hd.
    + destruct H as (m' & Hm & Hd). simpl.
      destruct Hm as [-> | ->]; rewrite PyFacts.append_assoc.
      * rewrite startswith_append, drop_append.
        destruct (IH m' groups rest Hd) as [r ->]. eauto.
      * destruct (if Py.startswith (b +:+ m' +:+ rest) a then _ else None);
          [eauto |].
        rewrite startswith_append, drop_append. eapply IH, Hd.
    + destruct H as (ch & m' & -> & Hc & Hd). simpl. rewrite Hc.
      eapply IH, Hd.
    + destruct H as (r & m' & g' & -> & Hall & Hmin & Hd & _). simpl.
      rewrite PyFacts.append_assoc.
      pose proof (span_all_in c r (m' +:+ rest) Hall) as Hspan.
      destruct (Nat.ltb_spec (span c (r +:+ m' +:+ rest)) min); [lia |].
      assert (is_Some (exec k (drop (Py.len r) (r +:+ m' +:+ rest)))) as Hk
        by (rewrite drop_append; eapply IH, Hd).
      destruct greedy.
      * destruct (first_down_found
                    (fun n => exec k (drop n (r +:+ m' +:+ rest)))
                    min (span c (r +:+ m' +:+ rest) - min) (Py.len r))
          as [[n [g rest']] ->]; [lia | exact Hk | eauto].
      * destruct (first_up_found
                    (fun n => exec k (drop n (r +:+ m' +:+ rest)))
                    (span c (r +:+ m' +:+ rest) - min) min (Py.len r))
          as [[n [g rest']] ->]; [lia | exact Hk | eauto].
Qed.

Lemma search_sound p s :
  forall groups rest,
    search p s = Some (groups, rest) ->
    exists pre m, s = pre +:+ m +:+ rest /\ denote p m groups.
Proof.
  induction s as [| a s IH]; intros groups rest H; simpl in H.
  - destruct (exec p EmptyString) as [[g r] |] eqn:E; [| discriminate].
    injection H as <- <-. apply exec_sound in E. destruct E as (m & Hm & Hd).
    exists EmptyString, m. auto.
  - destruct (exec p (String a s)) as [[g r] |] eqn:E.
    + injection H as <- <-. apply exec_sound in E. destruct E as (m & Hm & Hd).
      exists EmptyString, m. auto.
    + apply IH in H. destruct H as (pre & m & -> & Hd).
      exists (String a pre), m. auto.
Qed.

Lemma search_complete p m groups :
  denote p m groups ->
  forall pre rest, is_Some (search p (pre +:+ m +:+ rest)).
Proof.
  intros Hd pre rest. induction pre as [| a pre IH].
  - simpl. destruct (exec_complete p m groups rest Hd) as [r Hr].
    destruct (m +:+ rest); simpl; rewrite Hr; eauto.
  - simpl. destruct (exec p _); [eauto | exact IH].
Qed.

Lemma findall_from_unfold p skip s :
  findall_from p skip s =
  match skip with
  | S k => match s with
           | EmptyString => []
           | String _ s' => findall_from p k s'
           end
  | O => match exec p s with
         | Some (groups, rest) =>
             groups :: match s with
                       | EmptyString => []
                       | String _ s' =>
                           findall_from p (Py.len s - Py.len rest - 1) s'
                       end
         | None => match s with
                   | EmptyString => []
                   | String _ s' => findall_from p 0 s'
                   end
         end
  end.
Proof. destruct s; reflexivity. Qed.


(** Without a match anywhere in the text [findall] is empty. *)
Lemma findall_from_nil p s :
  search p s = None -> forall skip, findall_from p skip s = [].
Proof.
  induction s as [| a s IH]; intros H skip; rewrite findall_from_unfold;
    simpl in H.
  - destruct skip; [| reflexivity].
    destruct (exec p EmptyString); [discriminate | reflexivity].
  - destruct (exec p (String a s)); [discriminate |].
    destruct skip; now apply IH.
Qed.

End ReFacts.

(** ** What the matcher returns when the candidates can be told apart *)

Module ReExtra.
Import Re.

Lemma first_up_at {A} (k : nat -> option A) extra :
  forall n0 n r,
    (n0 <= n <= n0 + extra)%nat ->
    (forall j, (n0 <= j < n)%nat -> k j = None) ->
    k n = Some r ->
    first_up k n0 extra = Some (n, r).
Proof.
  induction extra as [| e IH]; intros n0 n r Hn Hbelow Hk; simpl.
  - replace n0 with n by lia. now rewrite Hk.
  - destruct (Nat.eq_dec n n0) as [-> | Hne]; [now rewrite Hk |].
    rewrite (Hbelow n0) by lia.
    apply IH; [lia | | assumption]. intros j Hj. apply Hbelow. lia.
Qed.

Lemma first_down_at {A} (k : nat -> option A) min extra n r :
  (min <= n <= min + extra)%nat ->
  (forall j, (n < j <= min + extra)%nat -> k j = None) ->
  k n = Some r ->
  first_down k min extra = Some (n, r).
Proof.
  intros Hn Habove Hk. induction extra as [| e IH]; simpl.
  - replace (min + 0)%nat with n by lia. now rewrite Hk.
  - destruct (Nat.eq_dec n (min + S e)) as [<- | Hne]; [now rewrite Hk |].
    rewrite (Habove (min + S e)%nat) by lia.
    apply IH; [lia |]. intros j Hj. apply Habove. lia.
Qed.

Lemma exec_Lit l k s : exec (Lit l :: k) (l +:+ s) = exec k s.
Proof.
  cbn [exec]. now rewrite ReFacts.startswith_append, ReFacts.drop_append.
Qed.

Lemma exec_Lit_fail l k s :
  Py.startswith s l = false -> exec (Lit l :: k) s = None.
Proof. intros H. cbn [exec]. now rewrite H. Qed.

Lemma drop_drop_append j r s :
  (j <= Py.len r)%nat -> drop j (r +:+ s) = drop j r +:+ s.
Proof.
  revert r. induction j as [| j IH]; intros r Hj.
  - simpl. now destruct r, s.
  - destruct r as [| a r]; [unfold Py.len in Hj; simpl in Hj; lia |].
    simpl. apply IH. unfold Py.len in *. simpl in Hj. lia.
Qed.


(** The run of a class ends where the text goes on with a character
    outside of the class. *)
Lemma span_exact c r s :
  all_in c r = true -> span c s = 0%nat -> span c (r +:+ s) = Py.len r.
Proof.
  intros Hr Hs. induction r as [| a r IH]; simpl; [assumption |].
  simpl in Hr. apply andb_prop in Hr. destruct Hr as [Ha Hr].
  rewrite Ha, IH by assumption. reflexivity.
Qed.

(** A quantified class, at the repetition count [Py.len r], when the
    counts tried before it all fail. *)
Lemma exec_Rep_at (c : cls) (min : nat) (greedy captured : bool)
      (k : pattern) (r s : string) (groups : list string) (rest : string) :
  all_in c r = true -> (min <= Py.len r)%nat ->
  (if greedy
   then forall j, (Py.len r < j <= span c (r +:+ s))%nat ->
                  exec k (drop j (r +:+ s)) = None
   else forall j, (min <= j < Py.len r)%nat ->
                  exec k (drop j (r +:+ s)) = None) ->
  exec k s = Some (groups, rest) ->
  exec (Rep c min greedy captured :: k) (r +:+ s)
  = Some ((if captured then [r] else []) ++ groups, rest).
Proof.
  intros Hr Hmin Hothers Hk. cbn [exec].
  pose proof (ReFacts.span_all_in c r s Hr) as Hspan.
  destruct (Nat.ltb_spec (span c (r +:+ s)) min); [lia |].
  assert (exec k (drop (Py.len r) (r +:+ s)) = Some (groups, rest)) as Hat
    by now rewrite ReFacts.drop_append.
  destruct greedy.
  - rewrite (first_down_at (fun n => exec k (drop n (r +:+ s)))
               min (span c (r +:+ s) - min) (Py.len r) (groups, rest));
      try assumption; try lia.
    + now rewrite ReFacts.take_append.
    + intros j Hj. apply Hothers. lia.
  - rewrite (first_up_at (fun n => exec k (drop n (r +:+ s)))
               (span c (r +:+ s) - min) min (Py.len r) (groups, rest));
      try assumption; try lia.
    now rewrite ReFacts.take_append.
Qed.

(** The closing run of a pattern takes what is left of the line. *)
Lemma exec_rest_of_line c s :
  exec [Rep c 0 true false] s = Some ([], drop (span c s) s).
Proof.
  assert (first_down (fun n => exec [] (drop n s)) 0 (span c s - 0)
          = Some (span c s, ([], drop (span c s) s))) as E.
  { apply first_down_at; [lia | intros j Hj; lia | reflexivity]. }
  cbn [exec] in *. destruct (Nat.ltb_spec (span c s) 0); [lia |].
  now rewrite E.
Qed.

(** Offsets at which the matcher fails are passed over by [search]. *)
Lemma search_skip p pre s :
  (forall j, (j < Py.len pre)%nat -> exec p (drop j (pre +:+ s)) = None) ->
  search p (pre +:+ s) = search p s.
Proof.
  induction pre as [| a pre IH]; intros H; [reflexivity |].
  assert (exec p (String a (pre +:+ s)) = None) as H0
    by (apply (H 0%nat); unfold Py.len; simpl; lia).
  simpl. rewrite H0.
  apply IH. intros j Hj. apply (H (S j)). unfold Py.len in *. simpl. lia.
Qed.

Lemma search_here p s r : exec p s = Some r -> search p s = Some r.
Proof. intros H. destruct s; simpl; now rewrite H. Qed.

Lemma startswith_other_char a x ch :
  a <> ch -> Py.startswith (String a x) (String ch EmptyString) = false.
Proof.
  intros H. simpl. destruct (Ascii.eqb_spec ch a); [congruence | reflexivity].
Qed.

(** Before the first occurrence of a character no offset starts with
    it. *)
Lemma startswith_before ch pre s j :
  Py.str_in (String ch EmptyString) pre = false -> (j < Py.len pre)%nat ->
  Py.startswith (drop j (pre +:+ s)) (String ch EmptyString) = false.
Proof.
  revert j. induction pre as [| a pre IH]; intros j Hno Hj.
  - unfold Py.len in Hj. simpl in Hj. lia.
  - rewrite PyFacts.str_in_unfold in Hno.
    destruct (Py.startswith (String a pre) (String ch EmptyString)) eqn:Hhead;
      [discriminate |].
    assert (a <> ch) as Hne.
    { intros ->. simpl in Hhead. rewrite Ascii.eqb_refl in Hhead.
      destruct pre; discriminate. }
    destruct j as [| j].
    + simpl. now apply startswith_other_char.
    + simpl. apply IH; [assumption |]. unfold Py.len in *. simpl in Hj. lia.
Qed.
















End ReExtra.

(** ** Script resolution at construction *)

Module InitFacts.
Import Init.

Section Resolve.

Variable abspath : string -> string.

Lemma matches_In path script programs m :
  In m (matches abspath path script programs) <->
  exists program,
    In program programs /\
    (exists pre post, program = pre +:+ script +:+ post) /\
    m = {| m_name := program;
           m_path := abspath (OsPath.join path program) |}.
Proof.
  unfold matches. rewrite in_map_iff. split.
  - intros (program & <- & H). apply List.filter_In in H. destruct H as [Hin Hsub].
    exists program. split; [assumption |]. split; [| reflexivity].
    now apply PyFacts.str_in_spec.
  - intros (program & Hin & Hsub & ->). exists program. split; [reflexivity |].
    apply List.filter_In. split; [assumption |]. now apply PyFacts.str_in_spec.
Qed.

Lemma percentage_Ok script m :
  m_name m <> EmptyString -> exists k, percentage script m = Ok k.
Proof.
  unfold percentage, Py.len. destruct (m_name m); [congruence |].
  intros _. simpl. eauto.
Qed.

Lemma percentage_Raise script m e :
  percentage script m = Raise e -> e = ZeroDivisionError.
Proof.
  unfold percentage. destruct (Py.len (m_name m)); [| discriminate].
  now intros [= <-].
Qed.

Lemma max_from_Raise script l best kbest e :
  max_from script best kbest l = Raise e -> e = ZeroDivisionError.
Proof.
  revert best kbest. induction l as [| x r IH]; intros best kbest; simpl.
  - discriminate.
  - destruct (percentage script x) as [k | e'] eqn:Hk.
    + destruct (Qcompare kbest k); apply IH.
    + intros [= <-]. eapply percentage_Raise, Hk.
Qed.

(** The scan of [max]: with the best so far ahead of everything before
    it and not behind anything since, the result splits the whole
    sequence the same way. *)
Lemma max_from_split script l :
  forall before best kbest since,
    percentage script best = Ok kbest ->
    (forall m, In m before ->
               exists k, percentage script m = Ok k /\ (k < kbest)%Q) ->
    (forall m, In m since ->
               exists k, percentage script m = Ok k /\ (k <= kbest)%Q) ->
    (forall m, In m l -> m_name m <> EmptyString) ->
    exists b kb l1 l2,
      max_from script best kbest l = Ok b /\
      percentage script b = Ok kb /\
      before ++ best :: since ++ l = l1 ++ b :: l2 /\
      (forall m, In m l1 ->
                 exists k, percentage script m = Ok k /\ (k < kb)%Q) /\
      (forall m, In m l2 ->
                 exists k, percentage script m = Ok k /\ (k <= kb)%Q).
Proof.
  induction l as [| x r IH]; intros before best kbest since Hbest Hb Hs Hne.
  - exists best, kbest, before, since. simpl. rewrite app_nil_r. auto.
  - simpl. destruct (percentage_Ok script x) as (k & Hk);
      [apply Hne; now left |].
    rewrite Hk. destruct (Qcompare kbest k) eqn:Hcmp.
    + destruct (IH before best kbest (since ++ [x])) as (b & kb & l1 & l2 & H);
        try assumption.
      * intros m Hm. apply in_app_or in Hm. destruct Hm as [Hm | [<- | []]];
          [now apply Hs |].
        exists k. split; [assumption |]. apply Qeq_alt in Hcmp.
        rewrite Hcmp. apply Qle_refl.
      * intros m Hm. apply Hne. now right.
      * exists b, kb, l1, l2. rewrite <- app_assoc in H. simpl in H. exact H.
    + apply Qlt_alt in Hcmp.
      destruct (IH (before ++ best :: since) x k []) as (b & kb & l1 & l2 & H);
        try assumption.
      * intros m Hm. apply in_app_or in Hm. destruct Hm as [Hm | [<- | Hm]].
        -- destruct (Hb m Hm) as (k' & Hk' & Hlt). exists k'.
           split; [assumption |]. eapply Qlt_trans; eassumption.
        -- exists kbest. auto.
        -- destruct (Hs m Hm) as (k' & Hk' & Hle). exists k'.
           split; [assumption |]. eapply Qle_lt_trans; eassumption.
      * intros m [].
      * intros m Hm. apply Hne. now right.
      * exists b, kb, l1, l2. rewrite <- app_assoc in H. simpl in H. exact H.
    + apply Qgt_alt in Hcmp.
      destruct (IH before best kbest (since ++ [x])) as (b & kb & l1 & l2 & H);
        try assumption.
      * intros m Hm. apply in_app_or in Hm. destruct Hm as [Hm | [<- | []]];
          [now apply Hs |].
        exists k. split; [assumption |]. now apply Qlt_le_weak.
      * intros m Hm. apply Hne. now right.
      * exists b, kb, l1, l2. rewrite <- app_assoc in H. simpl in H. exact H.
Qed.

Lemma select_match_split script ms :
  ms <> [] ->
  (forall m, In m ms -> m_name m <> EmptyString) ->
  exists b kb l1 l2,
    select_match script ms = Ok b /\
    percentage script b = Ok kb /\
    ms = l1 ++ b :: l2 /\
    (forall m, In m l1 -> exists k, percentage script m = Ok k /\ (k < kb)%Q) /\
    (forall m, In m l2 -> exists k, percentage script m = Ok k /\ (k <= kb)%Q).
Proof.
  destruct ms as [| x r]; [congruence |]. intros _ Hne. simpl.
  destruct (percentage_Ok script x) as (k & Hk); [apply Hne; now left |].
  rewrite Hk.
  apply (max_from_split script r [] x k []); try assumption.
  - intros m [].
  - intros m [].
  - intros m Hm. apply Hne. now right.
Qed.

Lemma matches_nonempty_names path script programs m :
  script <> EmptyString ->
  In m (matches abspath path script programs) -> m_name m <> EmptyString.
Proof.
  intros Hs Hm. apply matches_In in Hm.
  destruct Hm as (program & _ & (pre & post & Hp) & ->). simpl.
  intros Hempty. rewrite Hempty in Hp.
  destruct pre; [| discriminate]. destruct script; [congruence | discriminate].
Qed.

End Resolve.

(** Lines 81-98 on their own: the candidates, the error without one and
    the choice among several. *)
Lemma script_executable_resolution
  (abspath : string -> string) (path script : string)
  (programs : list string) :
  let candidates := matches abspath path script programs in
  (forall m, In m candidates <->
     exists program,
       In program programs /\
       (exists pre post, program = pre +:+ script +:+ post) /\
       m = {| m_name := program;
              m_path := abspath (OsPath.join path program) |}) /\
  (candidates = [] <->
   script_executable abspath path script programs =
   Raise (ValueError ("Cannot find " +:+ script +:+ " script"))) /\
  (script <> EmptyString -> candidates <> [] ->
   exists best kbest l1 l2,
     candidates = l1 ++ best :: l2 /\
     script_executable abspath path script programs = Ok (m_path best) /\
     percentage script best = Ok kbest /\
     (forall m, In m l1 ->
        exists k, percentage script m = Ok k /\ (k < kbest)%Q) /\
     (forall m, In m l2 ->
        exists k, percentage script m = Ok k /\ (k <= kbest)%Q)) /\
  script_executable abspath path "foo" ["foo"; "foobar"; "barfoo"] =
  Ok (abspath (OsPath.join path "foo")).
Proof.
  intros candidates. split; [| split; [| split]].
  - intros m. apply matches_In.
  - unfold script_executable. fold candidates. split.
    + intros ->. reflexivity.
    + destruct candidates as [| x r]; [reflexivity |]. simpl.
      destruct (percentage script x) as [k | e] eqn:Hk.
      * destruct (max_from script x k r) as [b | e] eqn:Hmax; [discriminate |].
        apply max_from_Raise in Hmax. subst e. discriminate.
      * apply percentage_Raise in Hk. subst e. discriminate.
  - intros Hs Hne.
    destruct (select_match_split script candidates Hne) as
      (b & kb & l1 & l2 & Hsel & Hkb & Hsplit & Hl1 & Hl2).
    + intros m Hm. eapply matches_nonempty_names; eassumption.
    + exists b, kb, l1, l2. unfold script_executable. fold candidates.
      rewrite Hsel. auto.
  - reflexivity.
Qed.

(** With a non-empty script name a larger quotient is a shorter name. *)
Lemma percentage_order script m m' k k' :
  script <> EmptyString ->
  percentage script m = Ok k -> percentage script m' = Ok k' ->
  ((k <= k')%Q <-> (Py.len (m_name m') <= Py.len (m_name m))%nat) /\
  ((k < k')%Q <-> (Py.len (m_name m') < Py.len (m_name m))%nat).
Proof.
  intros Hs Hk Hk'. unfold percentage in *.
  assert (0 < Py.len script)%nat as Hpos
    by (destruct script; [congruence | unfold Py.len; simpl; lia]).
  destruct (Py.len (m_name m)) as [| n]; [discriminate |].
  destruct (Py.len (m_name m')) as [| n']; [discriminate |].
  injection Hk as <-. injection Hk' as <-.
  unfold Qle, Qlt. cbn [Qnum Qden].
  rewrite !Zpos_P_of_succ_nat. split; split; intros H; nia.
Qed.

Lemma candidate_name abspath path script programs m :
  In m (matches abspath path script programs) ->
  (exists pre post, m_name m = pre +:+ script +:+ post) /\
  m_path m = abspath (OsPath.join path (m_name m)).
Proof.
  intros H. apply matches_In in H.
  destruct H as (program & _ & Hsub & ->). simpl. auto.
Qed.

(** A string that contains another of the same length is that string. *)
Lemma same_length_substring pre s post :
  Py.len (pre +:+ s +:+ post) = Py.len s -> pre +:+ s +:+ post = s.
Proof.
  rewrite !PyFacts.length_append. intros H.
  assert (Py.len pre = 0%nat /\ Py.len post = 0%nat) as [Hpre Hpost] by lia.
  destruct pre; [| discriminate]. destruct post; [| discriminate].
  simpl. apply PyFacts.append_nil_r.
Qed.

(** The quotient of the two lengths, written out: among non-empty names
    a shorter name has the larger quotient. *)
Lemma quotient_order script name name' :
  script <> EmptyString -> name <> EmptyString -> name' <> EmptyString ->
  let quotient := fun n : string =>
    (inject_Z (Z.of_nat (Py.len script)) /
     inject_Z (Z.of_nat (Py.len n)))%Q in
  ((Py.len name' < Py.len name)%nat -> (quotient name < quotient name')%Q) /\
  ((Py.len name' <= Py.len name)%nat -> (quotient name <= quotient name')%Q).
Proof.
  intros Hs Hn Hn' quotient. subst quotient. cbv beta.
  assert (0 < Py.len script)%nat as Hpos
    by (destruct script; [congruence | unfold Py.len; simpl; lia]).
  destruct name as [| a n]; [congruence |].
  destruct name' as [| a' n']; [congruence |].
  unfold Py.len in *. cbn [String.length] in *.
  set (p := String.length n) in *. set (p' := String.length n') in *.
  set (z := Z.of_nat (String.length script)).
  assert (0 < z)%Z as Hz by (subst z; lia).
  change (Z.of_nat (S p)) with (Z.pos (Pos.of_succ_nat p)).
  change (Z.of_nat (S p')) with (Z.pos (Pos.of_succ_nat p')).
  split; intros H.
  - setoid_rewrite <- Qmake_Qdiv. unfold Qlt. cbn [Qnum Qden].
    rewrite !Zpos_P_of_succ_nat. nia.
  - setoid_rewrite <- Qmake_Qdiv. unfold Qle. cbn [Qnum Qden].
    rewrite !Zpos_P_of_succ_nat. nia.
Qed.

(** When the script itself is a runnable program, a candidate whose
    name is no longer than any other candidate's has the script's
    name. *)
Lemma shortest_is_exact abspath path script programs best :
  In script programs ->
  In best (matches abspath path script programs) ->
  (forall m, In m (matches abspath path script programs) ->
             (Py.len (m_name best) <= Py.len (m_name m))%nat) ->
  m_name best = script.
Proof.
  intros Hin Hbest Hmin.
  assert (In {| m_name := script;
                m_path := abspath (OsPath.join path script) |}
             (matches abspath path script programs)) as Hexact.
  { apply matches_In. exists script. split; [assumption |].
    split; [| reflexivity]. exists EmptyString, EmptyString.
    simpl. symmetry. apply PyFacts.append_nil_r. }
  apply Hmin in Hexact. cbn [m_name] in Hexact.
  destruct (candidate_name _ _ _ _ _ Hbest) as ((pre & post & Hname) & _).
  rewrite Hname. apply same_length_substring. rewrite <- Hname.
  assert (Py.len script <= Py.len (m_name best))%nat
    by (rewrite Hname, !PyFacts.length_append; lia).
  lia.
Qed.

End InitFacts.

Module ConstructionFacts.

(** C3. At construction, once the build has gone through, the candidates
    are exactly the runnable programs whose name contains the script
    name; construction fails with the "Cannot find script" error exactly
    when there is no candidate; for a non-empty script name and at least
    one candidate the runner is bound to the path of a candidate whose
    quotient [len(script)/len(name)], written out here as the quotient
    of the two lengths, is at least that of every candidate and more
    than that of every candidate listed before it, that is, to the
    first of the candidates with the shortest name, which is the script
    itself when it is a runnable program; for the script foo and the
    runnable programs foo, foobar and barfoo, in whatever order, the
    runner is bound to foo. *)
Theorem script_resolution
  (abspath : string -> string) (path script : string) (optimized : bool)
  (build : Build.process) (programs : list string) :
  Build.configure_and_build (negb (String.eqb path EmptyString)) build
  = Ok tt ->
  let candidates := Init.matches abspath path script programs in
  let construct := Runner.init abspath path script optimized build programs in
  let quotient := fun m : Init.script_match =>
    (inject_Z (Z.of_nat (Py.len script)) /
     inject_Z (Z.of_nat (Py.len (Init.m_name m))))%Q in
  (forall m, In m candidates <->
     exists program,
       In program programs /\
       (exists pre post, program = pre +:+ script +:+ post) /\
       m = {| Init.m_name := program;
              Init.m_path := abspath (OsPath.join path program) |}) /\
  (candidates = [] <->
   construct = Raise (ValueError ("Cannot find " +:+ script +:+ " script"))) /\
  (script <> EmptyString -> candidates <> [] ->
   exists best kbest l1 l2 self,
     candidates = l1 ++ best :: l2 /\
     construct = Ok self /\
     script_executable self = Init.m_path best /\
     Init.percentage script best = Ok kbest /\
     (forall m, In m l1 ->
        exists k, Init.percentage script m = Ok k /\ (k < kbest)%Q) /\
     (forall m, In m l2 ->
        exists k, Init.percentage script m = Ok k /\ (k <= kbest)%Q) /\
     script_executable self
     = abspath (OsPath.join path (Init.m_name best)) /\
     (forall m, In m candidates -> Init.m_name m <> EmptyString) /\
     (forall m, In m l1 ->
        (quotient m < quotient best)%Q /\
        (Py.len (Init.m_name best) < Py.len (Init.m_name m))%nat) /\
     (forall m, In m l2 ->
        (quotient m <= quotient best)%Q /\
        (Py.len (Init.m_name best) <= Py.len (Init.m_name m))%nat) /\
     (In script programs -> Init.m_name best = script)) /\
  (script = "foo" ->
   (forall program,
       In program programs <-> In program ["foo"; "foobar"; "barfoo"]) ->
   exists self,
     construct = Ok self /\
     script_executable self = abspath (OsPath.join path "foo")).
Proof.
  intros Hbuild candidates construct quotient.
  destruct (InitFacts.script_executable_resolution abspath path script programs)
    as (Hcand & Hnone & Hbest & _).
  fold candidates in Hcand, Hnone, Hbest.
  assert (script <> EmptyString -> candidates <> [] ->
          exists best kbest l1 l2 self,
            candidates = l1 ++ best :: l2 /\
            construct = Ok self /\
            script_executable self = Init.m_path best /\
            Init.percentage script best = Ok kbest /\
            (forall m, In m l1 ->
               exists k, Init.percentage script m = Ok k /\ (k < kbest)%Q) /\
            (forall m, In m l2 ->
               exists k, Init.percentage script m = Ok k /\ (k <= kbest)%Q) /\
            script_executable self
            = abspath (OsPath.join path (Init.m_name best)) /\
            (forall m, In m candidates -> Init.m_name m <> EmptyString) /\
            (forall m, In m l1 ->
               (quotient m < quotient best)%Q /\
               (Py.len (Init.m_name best) < Py.len (Init.m_name m))%nat) /\
            (forall m, In m l2 ->
               (quotient m <= quotient best)%Q /\
               (Py.len (Init.m_name best) <= Py.len (Init.m_name m))%nat) /\
            (In script programs -> Init.m_name best = script)) as Hchoice.
  { intros Hs Hne.
    destruct (Hbest Hs Hne) as (b & kb & l1 & l2 & Hsplit & Hexe & Hkb & H1 & H2).
    assert (forall m, In m candidates -> Init.m_name m <> EmptyString)
      as Hnames
      by (intros m Hm; eapply InitFacts.matches_nonempty_names; eassumption).
    assert (In b candidates) as Hb
      by (rewrite Hsplit; apply in_or_app; right; now left).
    assert (forall m, In m l1 ->
              (Py.len (Init.m_name b) < Py.len (Init.m_name m))%nat) as Hlt.
    { intros m Hm. destruct (H1 m Hm) as (k & Hk & Hlt).
      now apply (InitFacts.percentage_order script m b k kb Hs Hk Hkb). }
    assert (forall m, In m l2 ->
              (Py.len (Init.m_name b) <= Py.len (Init.m_name m))%nat) as Hle.
    { intros m Hm. destruct (H2 m Hm) as (k & Hk & Hle).
      now apply (InitFacts.percentage_order script m b k kb Hs Hk Hkb). }
    exists b, kb, l1, l2. eexists. subst construct. unfold Runner.init.
    rewrite Hbuild, Hexe. cbn [script_executable].
    split; [assumption |]. split; [reflexivity |]. split; [reflexivity |].
    split; [assumption |]. split; [assumption |]. split; [assumption |].
    split; [apply (InitFacts.candidate_name abspath path script programs b Hb) |].
    split; [assumption |].
    split; [| split].
    - intros m Hm. split; [| now apply Hlt].
      apply (InitFacts.quotient_order script (Init.m_name m) (Init.m_name b));
        [assumption | | now apply Hnames | now apply Hlt].
      apply Hnames. rewrite Hsplit. apply in_or_app. now left.
    - intros m Hm. split; [| now apply Hle].
      apply (InitFacts.quotient_order script (Init.m_name m) (Init.m_name b));
        [assumption | | now apply Hnames | now apply Hle].
      apply Hnames. rewrite Hsplit. apply in_or_app. right. now right.
    - intros Hin.
      apply (InitFacts.shortest_is_exact abspath path script programs b Hin Hb).
      intros m Hm. fold candidates in Hm. rewrite Hsplit in Hm.
      apply in_app_or in Hm. destruct Hm as [Hm | [<- | Hm]].
      + apply Nat.lt_le_incl. now apply Hlt.
      + apply Nat.le_refl.
      + now apply Hle. }
  split; [exact Hcand |]. split; [| split; [exact Hchoice |]].
  - rewrite Hnone. subst construct. unfold Runner.init. rewrite Hbuild.
    destruct (Init.script_executable abspath path script programs) as [exe | e];
      split; intros H; try discriminate; congruence.
  - intros Hfoo Hprograms.
    assert (In script programs) as Hin
      by (apply Hprograms; rewrite Hfoo; now left).
    destruct Hchoice
      as (b & kb & l1 & l2 & self & Hsplit & Hself & _ & _ & _ & _
          & Hexe & _ & _ & _ & Hexact).
    + rewrite Hfoo. discriminate.
    + intros Hnil.
      assert (In {| Init.m_name := script;
                    Init.m_path := abspath (OsPath.join path script) |}
                 candidates) as Hc.
      { apply Hcand. exists script. split; [assumption |].
        split; [| reflexivity]. exists EmptyString, EmptyString.
        simpl. symmetry. apply PyFacts.append_nil_r. }
      rewrite Hnil in Hc. destruct Hc.
    + exists self. split; [assumption |].
      rewrite Hexe, (Hexact Hin), Hfoo. reflexivity.
Qed.

End ConstructionFacts.

(** ** Build progress *)

Module BuildFacts.
Import Build.

Lemma at_eof_ends polls returncode stderr :
  yielded (at_eof polls returncode stderr) = [] /\
  raised (at_eof polls returncode stderr) =
  if (returncode >? 0)%Z then Some (CompilationError stderr EmptyString)
  else None.
Proof.
  induction polls as [| n IH]; simpl; [| exact IH].
  destruct (returncode >? 0)%Z; auto.
Qed.

(** The generator yields the progress of each line that reports one, in
    the order of the lines. *)
Lemma build_output_yielded unread polls returncode stderr :
  yielded (build_output unread polls returncode stderr) =
  omap parse_line unread.
Proof.
  induction unread as [| output rest IH]; simpl.
  - apply at_eof_ends.
  - destruct output as [| a output]; [exact IH |].
    destruct (parse_line (String a output)); simpl; now rewrite IH.
Qed.

(** It ends in an exception exactly for a positive return code; the
    exception holds all of the error stream and what is left of the
    output stream, which is nothing. *)
Lemma build_output_raised unread polls returncode stderr :
  raised (build_output unread polls returncode stderr) =
  if (returncode >? 0)%Z then Some (CompilationError stderr EmptyString)
  else None.
Proof.
  induction unread as [| output rest IH]; simpl.
  - apply at_eof_ends.
  - destruct output as [| a output]; [exact IH |].
    destruct (parse_line (String a output)); simpl; exact IH.
Qed.

Lemma consume_raised {Y} (g : gen Y) :
  consume g = match raised g with
              | Some e => Raise e
              | None => Ok tt
              end.
Proof. induction g as [y rest IH | | e]; simpl; auto. Qed.

(** A line reports progress when its text holds a bracketed pair of
    digit runs separated by a slash; the pair is read in base ten. *)
Lemma parse_line_Some output current total :
  parse_line output = Some (current, total) ->
  exists pre ws c t post,
    strip output = pre +:+ "[" +:+ ws +:+ c +:+ "/" +:+ t +:+ "]" +:+ post /\
    Re.all_in Re.Space ws = true /\
    Re.all_in Re.Digit c = true /\ (1 <= Py.len c)%nat /\
    Re.all_in Re.Digit t = true /\ (1 <= Py.len t)%nat /\
    current = int c /\ total = int t.
Proof.
  unfold parse_line.
  destruct (Re.search Re.progress_re (strip output)) as [[groups rest] |] eqn:E;
    [| discriminate].
  apply ReFacts.search_sound in E. destruct E as (pre & m & Hs & Hd).
  cbn [Re.denote Re.progress_re] in Hd.
  destruct Hd as (m1 & -> & H).
  destruct H as (ws & m2 & g2 & -> & Hws & _ & H & ->).
  destruct H as (c & m3 & g3 & -> & Hc & Hclen & H & ->).
  destruct H as (m4 & -> & H).
  destruct H as (t & m5 & g5 & -> & Ht & Htlen & H & ->).
  destruct H as (m6 & -> & H).
  destruct H as (r & m7 & g7 & -> & _ & _ & (-> & ->) & ->).
  simpl. intros [= <- <-].
  exists pre, ws, c, t, (r +:+ rest).
  split; [rewrite Hs; string_eq |]. auto 10.
Qed.

Lemma parse_line_found output pre ws c t post :
  strip output = pre +:+ "[" +:+ ws +:+ c +:+ "/" +:+ t +:+ "]" +:+ post ->
  Re.all_in Re.Space ws = true ->
  Re.all_in Re.Digit c = true -> (1 <= Py.len c)%nat ->
  Re.all_in Re.Digit t = true -> (1 <= Py.len t)%nat ->
  is_Some (parse_line output).
Proof.
  intros Hs Hws Hc Hclen Ht Htlen.
  assert (Re.denote Re.progress_re
            ("[" +:+ ws +:+ c +:+ "/" +:+ t +:+ "]" +:+ EmptyString) [c; t])
    as Hd.
  { cbn [Re.denote Re.progress_re].
    eexists. split; [reflexivity |].
    exists ws. do 2 eexists. split; [reflexivity |]. split; [assumption |].
    split; [lia |]. split; [| reflexivity].
    exists c. do 2 eexists. split; [reflexivity |]. split; [assumption |].
    split; [assumption |]. split; [| reflexivity].
    eexists. split; [reflexivity |].
    exists t. do 2 eexists. split; [reflexivity |]. split; [assumption |].
    split; [assumption |]. split; [| reflexivity].
    eexists. split; [reflexivity |].
    exists EmptyString. do 2 eexists. split; [reflexivity |].
    split; [reflexivity |]. split; [unfold Py.len; simpl; lia |].
    split; [split; reflexivity | reflexivity]. }
  pose proof (ReFacts.search_complete _ _ _ Hd pre post) as Hfound.
  match type of Hfound with
  | is_Some (Re.search _ ?x) =>
      replace x with (strip output) in Hfound
        by (rewrite Hs; string_eq)
  end.
  destruct Hfound as [[groups rest] Hfound].
  pose proof Hfound as Hsound. apply ReFacts.search_sound in Hsound.
  destruct Hsound as (pre' & m & _ & Hm).
  cbn [Re.denote Re.progress_re] in Hm.
  destruct Hm as (m1 & _ & H).
  destruct H as (ws' & m2 & g2 & _ & _ & _ & H & ->).
  destruct H as (c' & m3 & g3 & _ & _ & _ & H & ->).
  destruct H as (m4 & _ & H).
  destruct H as (t' & m5 & g5 & _ & _ & _ & H & ->).
  destruct H as (m6 & _ & H).
  destruct H as (r & m7 & g7 & _ & _ & _ & (_ & ->) & ->).
  unfold parse_line. rewrite Hfound. simpl. eauto.
Qed.

(** The whole generator. *)
Lemma get_build_output_ends p :
  yielded (get_build_output p) = omap parse_line (bp_stdout p) /\
  raised (get_build_output p) =
  (if (bp_returncode p >? 0)%Z
   then Some (CompilationError (bp_stderr p) EmptyString)
   else None).
Proof.
  unfold get_build_output. split;
    [apply build_output_yielded | apply build_output_raised].
Qed.

(** C5 (evaluation of the code). A build that is ended by a signal comes
    back with a negative return code; the progress generator then yields
    the progress of its lines and ends normally, and
    [configure_and_build] returns without an error. *)
Theorem get_build_output_negative_returncode (p : process) :
  (bp_returncode p < 0)%Z ->
  yielded (get_build_output p) = omap parse_line (bp_stdout p) /\
  raised (get_build_output p) = None /\
  configure_and_build true p = Ok tt.
Proof.
  intros Hrc. destruct (get_build_output_ends p) as [Hy Hr].
  assert ((bp_returncode p >? 0)%Z = false) as Hneg
    by (destruct (Z.gtb_spec (bp_returncode p) 0); [lia | reflexivity]).
  rewrite Hneg in Hr.
  split; [assumption |]. split; [assumption |].
  unfold configure_and_build. now rewrite consume_raised, Hr.
Qed.

(** Without the progress bar the outcome of the build is not looked at. *)
Lemma configure_and_build_unobserved p : configure_and_build false p = Ok tt.
Proof. reflexivity. Qed.

End BuildFacts.

(** ** The two patterns of parameter discovery on a help text of the
    usual shape *)

Module HelpFacts.
Import Re Runner Help.











End HelpFacts.

(** ** Parameter discovery *)

Module DiscoveryFacts.
Import Re Runner Help.









End DiscoveryFacts.

(** ** run_simulations *)

Module RunnerFacts.
Import Runner.

(** *** Making the run directory *)

Lemma makedirs_unfold depth name files :
  makedirs depth name files =
  let '(head, tail) := head_tail name in
  <[name := Dir]>
    (match depth with
     | S depth' =>
         if negb (String.eqb head EmptyString) &&
            negb (String.eqb tail EmptyString)
         then match files !! head with
              | Some _ => files
              | None => makedirs depth' head files
              end
         else files
     | O => files
     end).
Proof. destruct depth; reflexivity. Qed.

(** The head that [os.makedirs] recurses on is shorter than the name. *)
Lemma head_tail_shorter name head tail :
  head_tail name = (head, tail) -> tail <> EmptyString ->
  (Py.len head < Py.len name)%nat.
Proof.
  unfold head_tail. destruct (OsPath.split name) as [h t] eqn:E.
  apply OsPathFacts.split_length in E. destruct t as [| a t].
  - intros H Ht. apply OsPathFacts.split_length in H.
    destruct tail; [congruence |]. unfold Py.len in *. simpl in *. lia.
  - intros H Ht. injection H as <- <-. unfold Py.len in *. simpl in *. lia.
Qed.

(** The length of the name is depth enough: a larger bound gives the
    same result. *)
Lemma makedirs_depth depth :
  forall depth' name files,
    (Py.len name <= depth)%nat -> (Py.len name <= depth')%nat ->
    makedirs depth name files = makedirs depth' name files.
Proof.
  induction depth as [| d IH]; intros d' name files Hd Hd';
    rewrite (makedirs_unfold _ name), (makedirs_unfold d' name);
    destruct (head_tail name) as [head tail] eqn:E; f_equal.
  - destruct d' as [| d']; [reflexivity |].
    destruct (String.eqb_spec tail EmptyString) as [Ht | Ht];
      [cbn [negb]; now rewrite andb_false_r |].
    pose proof (head_tail_shorter _ _ _ E Ht). lia.
  - destruct (String.eqb_spec tail EmptyString) as [Ht | Ht].
    { cbn [negb]. rewrite andb_false_r. destruct d'; reflexivity. }
    pose proof (head_tail_shorter _ _ _ E Ht) as Hlt.
    destruct d' as [| d']; [lia |].
    destruct (negb (String.eqb head EmptyString) && negb false);
      [| reflexivity].
    destruct (files !! head); [reflexivity |]. apply IH; lia.
Qed.

Lemma makedirs_self depth name files :
  makedirs depth name files !! name = Some Dir.
Proof.
  rewrite makedirs_unfold. destruct (head_tail name).
  apply lookup_insert_eq.
Qed.

(** [os.makedirs] makes directories where nothing exists: what exists is
    kept. *)
Lemma makedirs_kept depth :
  forall name files q nd,
    files !! name = None -> files !! q = Some nd ->
    makedirs depth name files !! q = Some nd.
Proof.
  induction depth as [| d IH]; intros name files q nd Hname Hq;
    rewrite makedirs_unfold; destruct (head_tail name) as [head tail];
    (rewrite lookup_insert_ne by congruence); [assumption |].
  destruct (_ && _); [| assumption].
  destruct (files !! head) eqn:E; [assumption |]. now apply IH.
Qed.

Lemma ensure_dir_self temp_dir files :
  is_Some (ensure_dir temp_dir files !! temp_dir) /\
  (files !! temp_dir = None ->
   ensure_dir temp_dir files !! temp_dir = Some Dir).
Proof.
  unfold ensure_dir. destruct (files !! temp_dir) eqn:E.
  - split; [rewrite E; eauto | discriminate].
  - rewrite makedirs_self. eauto.
Qed.

Lemma ensure_dir_kept temp_dir files q nd :
  files !! q = Some nd -> ensure_dir temp_dir files !! q = Some nd.
Proof.
  unfold ensure_dir. destruct (files !! temp_dir) eqn:E; [auto |].
  now apply makedirs_kept.
Qed.

Lemma valid_Some h l :
  valid h l = true -> exists d, h !! l = Some d /\ Dict.wf d = true.
Proof.
  unfold valid. destruct (h !! l) as [d |]; [| discriminate]. eauto.
Qed.

Lemma fresh_not_valid (h : gmap loc pdict) l :
  valid h l = true -> l <> fresh (dom h).
Proof.
  intros Hv ->. apply valid_Some in Hv. destruct Hv as (d & Hd & _).
  apply (is_fresh (dom h)). apply elem_of_dom. eauto.
Qed.

Lemma deref_insert_eq (h : gmap loc pdict) l d : deref (<[l := d]> h) l = d.
Proof. unfold deref. now rewrite lookup_insert_eq. Qed.

Lemma deref_insert_ne (h : gmap loc pdict) l l' d :
  l <> l' -> deref (<[l := d]> h) l' = deref h l'.
Proof. intros H. unfold deref. now rewrite lookup_insert_ne. Qed.

Lemma deref_Some (h : gmap loc pdict) l d : h !! l = Some d -> deref h l = d.
Proof. intros H. unfold deref. now rewrite H. Qed.

Lemma read_file_insert_eq (files : gmap string node) p c :
  read_file (<[p := File c]> files) p = read_text c.
Proof. unfold read_file. now rewrite lookup_insert_eq. Qed.

Lemma read_file_insert_ne (files : gmap string node) p q n :
  p <> q -> read_file (<[p := n]> files) q = read_file files q.
Proof. intros H. unfold read_file. now rewrite lookup_insert_ne. Qed.

Section Oracles.

Variable simulator : nat -> spawn -> outcome.
Variable uuid4 : nat -> string.
Variable time_time : nat -> float.

(** One iteration on a valid reference, step by step. *)
Lemma run_one_eq self data_folder parameter st d :
  heap st !! parameter = Some d -> Dict.wf d = true ->
  run_one simulator uuid4 time_time self data_folder parameter st =
  (result_of simulator uuid4 time_time self data_folder st d,
   state_after simulator uuid4 self data_folder st d).
Proof.
  intros Hd Hwf.
  assert (fresh (dom (heap st)) <> parameter) as Hne.
  { intros H. symmetry in H. revert H. apply fresh_not_valid.
    unfold valid. now rewrite Hd. }
  unfold run_one, call, result_of, state_after, outcome_of, spawn_of,
    temp_dir_of.
  cbn [heap fs spawned uuids ticks].
  rewrite deref_insert_eq.
  rewrite !(deref_insert_ne _ _ parameter) by exact Hne.
  rewrite (deref_Some _ _ _ Hd).
  rewrite insert_insert_eq.
  rewrite (DictFacts.update_empty d Hwf).
  rewrite read_file_insert_eq.
  rewrite read_file_insert_ne, read_file_insert_eq.
  2:{ intros H. apply OsPathFacts.join_inj in H; [discriminate | reflexivity..]. }
  cbn [tl Dict.set].
  destruct (_ >? 0)%Z; reflexivity.
Qed.


(** What one iteration does to the store: it adds one dictionary. *)
Lemma state_after_heap_old self data_folder st d l :
  is_Some (heap st !! l) ->
  heap (state_after simulator uuid4 self data_folder st d) !! l = heap st !! l.
Proof.
  intros Hl. cbn [state_after heap]. apply lookup_insert_ne.
  intros <-. apply (is_fresh (dom (heap st))). now apply elem_of_dom.
Qed.

Lemma state_after_heap_new self data_folder st d :
  heap (state_after simulator uuid4 self data_folder st d)
    !! fresh (dom (heap st)) = Some d /\
  heap st !! fresh (dom (heap st)) = None.
Proof.
  split.
  - cbn [state_after heap]. apply lookup_insert_eq.
  - apply not_elem_of_dom, is_fresh.
Qed.

Lemma valid_state_after self data_folder st d l :
  valid (heap st) l = true ->
  valid (heap (state_after simulator uuid4 self data_folder st d)) l = true.
Proof.
  intros Hv. unfold valid in *. rewrite state_after_heap_old; [assumption |].
  destruct (heap st !! l); [eauto | discriminate].
Qed.

Lemma result_of_cases self data_folder st d :
  let o := outcome_of simulator uuid4 self data_folder st d in
  ((returncode o > 0)%Z /\
   result_of simulator uuid4 time_time self data_folder st d =
   Raise (SimulationError d (read_text (stderr o)) (read_text (stdout o))
            ("./waf --run " +:+ quote +:+
             Py.join " " (script self :: map token d) +:+ quote))) \/
  ((returncode o <= 0)%Z /\
   result_of simulator uuid4 time_time self data_folder st d =
   Ok {| r_params := fresh (dom (heap st));
         r_meta := [("id", MStr (uuid4 (uuids st)));
                    ("elapsed_time",
                     MFloat (PrimFloat.sub (time_time (S (ticks st)))
                                           (time_time (ticks st))))] |}).
Proof.
  intros o. unfold result_of. fold o.
  destruct (Z.gtb_spec (returncode o) 0); [left | right]; split;
    (lia || reflexivity).
Qed.

(** The whole iteration: the store only grows, the results answer the
    leading combinations in order, one process is started per combination
    attempted, and a failure is the failure of the first combination
    without a result. *)
Lemma run_simulations_inv self data_folder parameter_list :
  forall st rs e st',
    Forall (fun p => valid (heap st) p = true) parameter_list ->
    run_simulations simulator uuid4 time_time self parameter_list data_folder st
    = (rs, e, st') ->
    (forall l, is_Some (heap st !! l) -> heap st' !! l = heap st !! l) /\
    (forall i r, rs !! i = Some r ->
       exists p, parameter_list !! i = Some p /\
                 heap st !! r_params r = None /\
                 heap st' !! r_params r = heap st !! p) /\
    (exists news,
        spawned st' = spawned st ++ news /\
        length news =
          (length rs + match e with Some _ => 1 | None => 0 end)%nat /\
        forall i sp, news !! i = Some sp ->
          exists p, parameter_list !! i = Some p /\
                    sp_argv sp =
                    script_executable self :: map token (deref (heap st) p) /\
                    sp_env sp = environment self /\
                    ((returncode (simulator (length (spawned st) + i) sp) > 0)%Z
                     <-> i = length rs)) /\
    match e with
    | None => length rs = length parameter_list
    | Some x =>
        exists p err out cmd,
          parameter_list !! length rs = Some p /\
          x = SimulationError (deref (heap st) p) err out cmd
    end.
Proof.
  induction parameter_list as [| p rest IH]; intros st rs e st' Hvalid Hrun.
  - simpl in Hrun. injection Hrun as <- <- <-. simpl.
    split; [auto |]. split; [intros i r Hi; destruct i; discriminate |].
    split; [| reflexivity].
    exists []. rewrite app_nil_r. split; [reflexivity |].
    split; [reflexivity |]. intros i sp Hi. destruct i; discriminate.
  - apply Forall_cons in Hvalid. destruct Hvalid as [Hp Hrest].
    destruct (valid_Some _ _ Hp) as (d & Hd & Hwf).
    simpl in Hrun. rewrite (run_one_eq self data_folder p st d Hd Hwf) in Hrun.
    set (st1 := state_after simulator uuid4 self data_folder st d) in *.
    assert (deref (heap st) p = d) as Hderef by now apply deref_Some.
    assert (forall l, is_Some (heap st !! l) -> heap st1 !! l = heap st !! l)
      as Hstep
      by (intros l Hl; now apply (state_after_heap_old self data_folder)).
    destruct (result_of_cases self data_folder st d) as [[Hrc Hres] | [Hrc Hres]];
      rewrite Hres in Hrun; unfold outcome_of in Hrc.
    + injection Hrun as <- <- <-. simpl.
      split; [exact Hstep |].
      split; [intros i r Hi; destruct i; discriminate |].
      split.
      * exists [spawn_of uuid4 self data_folder st d]. split; [reflexivity |].
        split; [reflexivity |]. intros [| i] sp Hi; [| destruct i; discriminate].
        injection Hi as <-. exists p. rewrite Nat.add_0_r. simpl.
        rewrite Hderef. tauto.
      * do 4 eexists. split; [reflexivity |]. now rewrite Hderef.
    + destruct (run_simulations simulator uuid4 time_time self rest
                  data_folder st1) as [[rs1 e1] st1'] eqn:Hrec.
      injection Hrun as <- <- <-.
      assert (Forall (fun q => valid (heap st1) q = true) rest) as Hrest1.
      { eapply Forall_impl; [exact Hrest |]. intros q Hq.
        now apply (valid_state_after self data_folder). }
      destruct (IH st1 rs1 e1 st1' Hrest1 Hrec) as (Hold & Hres1 & Hsp & Hend).
      destruct (state_after_heap_new self data_folder st d) as [Hnew Hnone].
      fold st1 in Hnew.
      assert (forall i q, rest !! i = Some q -> heap st1 !! q = heap st !! q)
        as Hvq.
      { intros i q Hq. apply Hstep.
        rewrite Forall_lookup in Hrest. specialize (Hrest i q Hq).
        apply valid_Some in Hrest. destruct Hrest as (dq & -> & _). eauto. }
      split.
      { intros l Hl. rewrite Hold; [now apply Hstep |].
        rewrite Hstep by assumption. assumption. }
      split.
      { intros [| i] r Hi; simpl in Hi.
        - injection Hi as <-. exists p. simpl. split; [reflexivity |].
          split; [assumption |]. rewrite Hold by (rewrite Hnew; eauto).
          now rewrite Hnew, Hd.
        - destruct (Hres1 i r Hi) as (q & Hq & Hnone1 & Hsame).
          exists q. simpl. split; [assumption |]. split.
          + destruct (heap st !! r_params r) eqn:E; [| reflexivity].
            rewrite Hstep in Hnone1 by (rewrite E; eauto). congruence.
          + rewrite Hsame. eapply Hvq, Hq. }
      split.
      { destruct Hsp as (news & Hnews & Hlen & Hall).
        exists (spawn_of uuid4 self data_folder st d :: news).
        split; [rewrite Hnews; subst st1; simpl; now rewrite <- app_assoc |].
        split; [simpl; now rewrite Hlen |].
        intros [| i] sp Hi; simpl in Hi.
        - injection Hi as <-. exists p. rewrite Nat.add_0_r. simpl.
          rewrite Hderef. repeat split; try reflexivity; [lia | discriminate].
        - destruct (Hall i sp Hi) as (q & Hq & Hargv & Henv & Hrcq).
          exists q. simpl. split; [assumption |].
          split; [rewrite Hargv; unfold deref; now rewrite (Hvq i q Hq) |].
          split; [assumption |].
          subst st1. cbn [state_after spawned] in Hrcq.
          rewrite length_app in Hrcq. cbn [length] in Hrcq.
          replace (length (spawned st) + S i)%nat
            with (length (spawned st) + 1 + i)%nat by lia.
          rewrite Hrcq. lia. }
      destruct e1 as [x |]; simpl.
      * destruct Hend as (q & err & out & cmd & Hq & ->).
        exists q, err, out, cmd. split; [assumption |].
        unfold deref. now rewrite (Hvq _ q Hq).
      * now rewrite Hend.
Qed.

(** One iteration starts exactly one process, with the runner's
    environment, whatever the reference holds. *)
Lemma run_one_spawned self data_folder parameter st :
  exists sp,
    spawned (snd (run_one simulator uuid4 time_time self data_folder
                          parameter st)) = spawned st ++ [sp] /\
    sp_env sp = environment self.
Proof.
  unfold run_one, call. cbn [heap fs spawned uuids ticks].
  destruct (_ >? 0)%Z; cbn [snd spawned]; eexists; split; reflexivity.
Qed.

Lemma run_simulations_spawned self data_folder parameter_list :
  forall st,
  exists news,
    spawned (snd (run_simulations simulator uuid4 time_time self
                    parameter_list data_folder st)) = spawned st ++ news /\
    Forall (fun sp => sp_env sp = environment self) news.
Proof.
  induction parameter_list as [| p rest IH]; intros st; simpl.
  - exists []. now rewrite app_nil_r.
  - destruct (run_one_spawned self data_folder p st) as (sp & Hsp & Henv).
    destruct (run_one _ _ _ _ _ p st) as [[r | e] st1]; simpl in Hsp.
    + destruct (IH st1) as (news & Hnews & Hall).
      destruct (run_simulations _ _ _ _ rest _ st1) as [[rs e] st2].
      simpl in *. exists (sp :: news).
      rewrite Hnews, Hsp, <- app_assoc. split; [reflexivity |].
      now constructor.
    + simpl. exists [sp]. split; [assumption |]. now constructor.
Qed.

(** C2 (evaluation of the code). A simulator that is killed by a signal
    comes back with a negative return code; the iteration then raises
    nothing and yields a result, as it does for the return code 0.  (An
    exception is raised exactly for the positive return codes.) *)
Theorem run_one_negative_returncode_yields
  self data_folder parameter st d :
  heap st !! parameter = Some d -> Dict.wf d = true ->
  (returncode (outcome_of simulator uuid4 self data_folder st d) < 0)%Z ->
  exists r,
    fst (run_one simulator uuid4 time_time self data_folder parameter st)
    = Ok r /\
    r_params r = fresh (dom (heap st)) /\
    Dict.get "id" (r_meta r) = Some (MStr (uuid4 (uuids st))).
Proof.
  intros Hd Hwf Hrc. rewrite (run_one_eq self data_folder parameter st d Hd Hwf).
  destruct (result_of_cases self data_folder st d) as [[H _] | [_ H]];
    [lia |].
  cbn [fst]. rewrite H. eexists. split; [reflexivity |]. split; reflexivity.
Qed.

(** What an iteration produces, by return code: a positive one raises
    the error with the dictionary, the text of the two captured files and
    the command to reproduce; any other yields a result whose parameters
    are a copy of the dictionary and whose meta holds the id and the
    elapsed time. *)
Lemma run_one_by_returncode self data_folder parameter st d :
  heap st !! parameter = Some d -> Dict.wf d = true ->
  let o := outcome_of simulator uuid4 self data_folder st d in
  let run := run_one simulator uuid4 time_time self data_folder parameter st in
  ((returncode o > 0)%Z <->
   fst run =
   Raise (SimulationError d (read_text (stderr o)) (read_text (stdout o))
            ("./waf --run " +:+ quote +:+
             Py.join " " (script self :: map token d) +:+ quote))) /\
  ((returncode o <= 0)%Z <->
   exists r, fst run = Ok r /\
             heap (snd run) !! r_params r = Some d /\
             Dict.get "id" (r_meta r) = Some (MStr (uuid4 (uuids st))) /\
             Dict.get "elapsed_time" (r_meta r) =
             Some (MFloat (PrimFloat.sub (time_time (S (ticks st)))
                                         (time_time (ticks st))))).
Proof.
  intros Hd Hwf o run. subst run.
  rewrite (run_one_eq self data_folder parameter st d Hd Hwf). cbn [fst snd].
  destruct (result_of_cases self data_folder st d) as [[Hrc H] | [Hrc H]];
    fold o in Hrc, H; rewrite H; split; split; try lia; try discriminate;
    try reflexivity.
  - intros (r & Hr & _). discriminate.
  - intros _. eexists. split; [reflexivity |]. cbn [r_params r_meta].
    split; [apply state_after_heap_new |]. split; reflexivity.
Qed.

(** C4. An iteration on a combination starts one process whose command
    line is the executable followed by one token [--name=value] per
    parameter, in the order of the dictionary; its current directory is
    the directory named by the newly drawn id under [data_folder], which
    exists afterwards and is created when no entry has that name yet;
    the files [stdout] and [stderr] of that directory hold what the
    process wrote to its standard output and error. *)
Theorem run_one_command_and_capture self data_folder parameter st d :
  heap st !! parameter = Some d -> Dict.wf d = true ->
  let id := uuid4 (uuids st) in
  let temp_dir := OsPath.join data_folder id in
  let st' := snd (run_one simulator uuid4 time_time self data_folder
                          parameter st) in
  exists sp,
    spawned st' = spawned st ++ [sp] /\
    sp_argv sp =
      script_executable self ::
      map (fun kv => "--" +:+ fst kv +:+ "=" +:+ str (snd kv)) d /\
    length (sp_argv sp) = S (length d) /\
    sp_cwd sp = temp_dir /\
    uuids st' = S (uuids st) /\
    is_Some (fs st' !! temp_dir) /\
    (fs st !! temp_dir = None -> fs st' !! temp_dir = Some Dir) /\
    fs st' !! OsPath.join temp_dir "stdout" =
      Some (File (stdout (simulator (length (spawned st)) sp))) /\
    fs st' !! OsPath.join temp_dir "stderr" =
      Some (File (stderr (simulator (length (spawned st)) sp))).
Proof.
  intros Hd Hwf id temp_dir st'. subst st'.
  rewrite (run_one_eq self data_folder parameter st d Hd Hwf). cbn [snd].
  exists (spawn_of uuid4 self data_folder st d).
  assert (OsPath.join temp_dir "stderr" <> temp_dir) as Herr
    by (apply OsPathFacts.join_longer; [reflexivity | discriminate]).
  assert (OsPath.join temp_dir "stdout" <> temp_dir) as Hout
    by (apply OsPathFacts.join_longer; [reflexivity | discriminate]).
  assert (OsPath.join temp_dir "stderr" <> OsPath.join temp_dir "stdout")
    as Hdiff.
  { intros H. apply OsPathFacts.join_inj in H; [discriminate | reflexivity..]. }
  cbn [state_after spawned uuids fs spawn_of sp_argv sp_cwd].
  fold (temp_dir_of uuid4 data_folder st). change (temp_dir_of uuid4 data_folder st) with temp_dir.
  split; [reflexivity |]. split; [reflexivity |].
  split; [cbn [length]; now rewrite length_map |].
  split; [reflexivity |]. split; [reflexivity |].
  rewrite !(lookup_insert_ne _ _ temp_dir) by assumption.
  split; [| split; [| split]].
  - apply ensure_dir_self.
  - apply ensure_dir_self.
  - rewrite lookup_insert_ne by assumption. apply lookup_insert_eq.
  - apply lookup_insert_eq.
Qed.

(** A consumer that stops after [n] calls of [next()] has received the
    first [n] of the results that a full iteration yields. *)
Lemma next_n_prefix self data_folder n :
  forall parameter_list st,
    fst (next_n simulator uuid4 time_time n self parameter_list data_folder st)
    = take n (fst (fst (run_simulations simulator uuid4 time_time self
                          parameter_list data_folder st))).
Proof.
  induction n as [| n IH]; intros parameter_list st.
  - reflexivity.
  - destruct parameter_list as [| p rest]; [reflexivity |].
    cbn [next_n next run_simulations].
    destruct (run_one simulator uuid4 time_time self data_folder p st)
      as [[r | e] st1]; [| reflexivity].
    specialize (IH rest st1).
    destruct (next_n simulator uuid4 time_time n self rest data_folder st1)
      as [rs1 st2].
    destruct (run_simulations simulator uuid4 time_time self rest
                data_folder st1) as [[rs e] st3].
    simpl in *. now rewrite IH.
Qed.

(** C7. Consuming [run_simulations] to its end on valid combinations:
    the results come in submission order, the i-th result carrying a copy
    of the i-th combination; one process is started for each result and
    one for the failing combination, in submission order, and none after
    it; the processes behind the results did not return a positive code
    and the one behind the failure did; without a failure every
    combination has its result, and a failure is the failure of the
    combination that follows the last result.  A consumer that stops
    after [n] calls of [next()] has received the first [n] of these
    results. *)
Theorem run_simulations_in_order_fail_fast
  self data_folder parameter_list st rs e st' :
  Forall (fun p => valid (heap st) p = true) parameter_list ->
  run_simulations simulator uuid4 time_time self parameter_list data_folder st
  = (rs, e, st') ->
  (length rs <= length parameter_list)%nat /\
  (forall i r, rs !! i = Some r ->
     exists p, parameter_list !! i = Some p /\
               deref (heap st') (r_params r) = deref (heap st) p) /\
  (forall n,
     fst (next_n simulator uuid4 time_time n self parameter_list data_folder st)
     = take n rs) /\
  (exists news,
      spawned st' = spawned st ++ news /\
      length news = (length rs + match e with Some _ => 1 | None => 0 end)%nat /\
      forall i sp, news !! i = Some sp ->
        exists p, parameter_list !! i = Some p /\
                  sp_argv sp =
                  script_executable self :: map token (deref (heap st) p) /\
                  ((returncode (simulator (length (spawned st) + i) sp) > 0)%Z
                   <-> i = length rs)) /\
  match e with
  | None => length rs = length parameter_list
  | Some x =>
      (length rs < length parameter_list)%nat /\
      exists p err out cmd,
        parameter_list !! length rs = Some p /\
        x = SimulationError (deref (heap st) p) err out cmd
  end.
Proof.
  intros Hvalid Hrun.
  destruct (run_simulations_inv self data_folder parameter_list st rs e st'
              Hvalid Hrun) as (_ & Hres & (news & Hnews & Hlen & Hall) & Hend).
  assert (length rs <= length parameter_list)%nat as Hle.
  { destruct e as [x |]; [| lia].
    destruct Hend as (p & _ & _ & _ & Hp & _).
    apply lookup_lt_Some in Hp. lia. }
  split; [exact Hle |]. split.
  - intros i r Hi. destruct (Hres i r Hi) as (p & Hp & _ & Hsame).
    exists p. split; [assumption |]. unfold deref. now rewrite Hsame.
  - split; [intros n; now rewrite next_n_prefix, Hrun |].
    split.
    + exists news. split; [assumption |]. split; [assumption |].
      intros i sp Hi. destruct (Hall i sp Hi) as (p & Hp & Hargv & _ & Hrc).
      exists p. auto.
    + destruct e as [x |]; [| assumption].
      destruct Hend as (p & err & out & cmd & Hp & Hx).
      split; [apply lookup_lt_Some in Hp; lia |].
      exists p, err, out, cmd. auto.
Qed.

(** C10. Consuming [run_simulations] on valid combinations leaves every
    dictionary that was alive before the call as it was, the input
    combinations among them, whether the iteration ends normally or by a
    failure; the [params] of the i-th result is a dictionary that did not
    exist before the call, so it is not the object of any input, and it
    holds what the i-th combination holds. *)
Theorem run_simulations_keeps_its_input
  self data_folder parameter_list st rs e st' :
  Forall (fun p => valid (heap st) p = true) parameter_list ->
  run_simulations simulator uuid4 time_time self parameter_list data_folder st
  = (rs, e, st') ->
  (forall l, is_Some (heap st !! l) -> heap st' !! l = heap st !! l) /\
  (forall p, In p parameter_list -> heap st' !! p = heap st !! p) /\
  (forall i r, rs !! i = Some r ->
     heap st !! r_params r = None /\
     (forall p, In p parameter_list -> r_params r <> p) /\
     exists p, parameter_list !! i = Some p /\
               heap st' !! r_params r = heap st !! p).
Proof.
  intros Hvalid Hrun.
  destruct (run_simulations_inv self data_folder parameter_list st rs e st'
              Hvalid Hrun) as (Hold & Hres & _ & _).
  assert (forall p, In p parameter_list -> is_Some (heap st !! p)) as Halive.
  { intros p Hp. rewrite Forall_forall in Hvalid.
    apply list_elem_of_In in Hp. specialize (Hvalid p Hp).
    apply valid_Some in Hvalid. destruct Hvalid as (d & -> & _). eauto. }
  split; [exact Hold |]. split.
  - intros p Hp. apply Hold, Halive, Hp.
  - intros i r Hi. destruct (Hres i r Hi) as (p & Hp & Hnone & Hsame).
    split; [assumption |]. split; [| eauto].
    intros q Hq Heq. apply Halive in Hq. rewrite <- Heq, Hnone in Hq.
    destruct Hq as [x Hx]. discriminate.
Qed.

End Oracles.

(** C9. A runner built by the constructor passes to every process it
    starts for a simulation run or for parameter discovery an environment
    of exactly two variables, [LD_LIBRARY_PATH] and [DYLD_LIBRARY_PATH],
    both set to the same search path: with [optimized] the two
    directories [build/optimized] and [build/optimized/lib] joined to the
    installation path and separated by a colon, without it the single
    directory [build] joined to the installation path.  For an
    installation path that is not empty and does not end in a separator
    these are [path/build/optimized:path/build/optimized/lib] and
    [path/build]. *)
Theorem spawned_environment
  (abspath : string -> string) (path_ script_ : string) (optimized : bool)
  (build : Build.process) (programs : list string) (self : runner) :
  init abspath path_ script_ optimized build programs = Ok self ->
  let library_path :=
    if optimized
    then OsPath.join path_ "build/optimized" +:+ ":" +:+
         OsPath.join path_ "build/optimized/lib"
    else OsPath.join path_ "build" in
  environment self =
    [("LD_LIBRARY_PATH", library_path); ("DYLD_LIBRARY_PATH", library_path)] /\
  (path_ <> EmptyString -> Py.endswith_char path_ "/" = false ->
   library_path =
   if optimized
   then path_ +:+ "/build/optimized:" +:+ path_ +:+ "/build/optimized/lib"
   else path_ +:+ "/build") /\
  (forall simulator uuid4 time_time parameter_list data_folder st,
   exists news,
     spawned (snd (run_simulations simulator uuid4 time_time self
                     parameter_list data_folder st)) = spawned st ++ news /\
     Forall (fun sp => sp_env sp = environment self) news) /\
  (forall simulator st,
   exists sp,
     spawned (snd (get_available_parameters simulator self st))
     = spawned st ++ [sp] /\
     sp_argv sp = [script_executable self; "--PrintHelp"] /\
     sp_env sp = environment self).
Proof.
  intros Hinit library_path.
  assert (environment self = Init.environment path_ optimized) as Henv.
  { unfold init in Hinit.
    destruct (Build.configure_and_build _ build); [| discriminate].
    destruct (Init.script_executable _ _ _ _); [| discriminate].
    now injection Hinit as <-. }
  split; [| split; [| split]].
  - rewrite Henv. subst library_path. now destruct optimized.
  - intros Hne Hslash. subst library_path. destruct optimized.
    + rewrite !OsPathFacts.join_plain by (reflexivity || assumption).
      rewrite !PyFacts.append_assoc. reflexivity.
    + now rewrite OsPathFacts.join_plain by (reflexivity || assumption).
  - intros. apply run_simulations_spawned.
  - intros simulator st. unfold get_available_parameters.
    destruct (negb _); [| destruct (Re.findall1 _ _)]; cbn [snd spawned];
      eexists; repeat split; reflexivity.
Qed.

End RunnerFacts.

(** ** The repetition-index allocator *)

Module CampaignFacts.
Import Campaign.

Lemma is_used_In used z : is_used used z = true <-> In z used.
Proof.
  unfold is_used. rewrite existsb_exists. split.
  - intros (x & Hx & Heq). apply Z.eqb_eq in Heq. now subst.
  - intros H. exists z. split; [assumption | apply Z.eqb_refl].
Qed.

Lemma unused_In used z : unused used z = true <-> ~ In z used.
Proof.
  unfold unused. rewrite negb_true_iff, <- not_true_iff_false.
  now rewrite is_used_In.
Qed.

Lemma cands_In n z : In z (cands n) <-> (0 <= z < Z.of_nat n)%Z.
Proof.
  unfold cands. rewrite in_map_iff. split.
  - intros (k & <- & Hk). apply in_seq in Hk. lia.
  - intros H. exists (Z.to_nat z). split; [lia | apply in_seq; lia].
Qed.

Lemma cands_NoDup n : List.NoDup (cands n).
Proof.
  unfold cands. apply Finite.Injective_map_NoDup; [| apply seq_NoDup].
  intros a b H. lia.
Qed.

Lemma cands_app n m : cands (n + m) = cands n ++ map Z.of_nat (seq n m).
Proof. unfold cands. now rewrite seq_app, map_app. Qed.

Lemma cands_sorted n : StronglySorted Z.lt (cands n).
Proof.
  unfold cands. generalize 0%nat as s. induction n as [| n IH]; intros s; simpl.
  - constructor.
  - constructor; [apply IH |].
    apply List.Forall_forall. intros z Hz. apply in_map_iff in Hz.
    destruct Hz as (k & <- & Hk). apply in_seq in Hk. lia.
Qed.

Lemma filter_sorted (f : Z -> bool) l :
  StronglySorted Z.lt l -> StronglySorted Z.lt (List.filter f l).
Proof.
  induction 1 as [| a l Hs IH Hall]; simpl; [constructor |].
  destruct (f a); [| assumption].
  constructor; [assumption |].
  apply List.Forall_forall. intros z Hz. apply List.filter_In in Hz.
  rewrite List.Forall_forall in Hall. now apply Hall.
Qed.

Lemma firstn_In {A} n (l : list A) x : In x (firstn n l) -> In x l.
Proof.
  revert l. induction n as [| n IH]; intros [| a l]; simpl; try tauto.
  intros [-> | H]; [now left | right; now apply IH].
Qed.

Lemma firstn_sorted n (l : list Z) :
  StronglySorted Z.lt l -> StronglySorted Z.lt (firstn n l).
Proof.
  intros H. revert n. induction H as [| a l Hs IH Hall]; intros [| n]; simpl;
    try constructor; [apply IH |].
  apply List.Forall_forall. intros z Hz. apply firstn_In in Hz.
  rewrite List.Forall_forall in Hall. now apply Hall.
Qed.

(** Pigeonhole: the used candidates are no more than the used indices. *)
Lemma used_cands_bound used n :
  (length (List.filter (is_used used) (cands n)) <= length used)%nat.
Proof.
  apply List.NoDup_incl_length.
  - apply List.NoDup_filter, cands_NoDup.
  - intros z Hz. apply List.filter_In in Hz. now apply is_used_In.
Qed.

Lemma filter_split_length {A} (f : A -> bool) l :
  (length (List.filter f l) + length (List.filter (fun x => negb (f x)) l)
   = length l)%nat.
Proof.
  induction l as [| a l IH]; simpl; [reflexivity |].
  destruct (f a); simpl; lia.
Qed.

Lemma free_cands_enough used n count :
  (length used + count <= n)%nat ->
  (count <= length (List.filter (unused used) (cands n)))%nat.
Proof.
  intros Hn.
  pose proof (filter_split_length (is_used used) (cands n)) as Hsplit.
  pose proof (used_cands_bound used n) as Hused.
  assert (length (cands n) = n) as Hlen
    by (unfold cands; now rewrite length_map, length_seq).
  unfold unused. lia.
Qed.

(** Looking further than [len(used) + count] candidates changes nothing. *)
Lemma next_free_bound used count n :
  (length used + count <= n)%nat ->
  next_free used count = firstn count (List.filter (unused used) (cands n)).
Proof.
  intros Hn. unfold next_free. fold (cands (length used + count)).
  set (m := (length used + count)%nat) in *.
  assert (cands n = cands m ++ map Z.of_nat (seq m (n - m))) as ->
    by (rewrite <- cands_app; f_equal; lia).
  pose proof (free_cands_enough used m count (Nat.le_refl _)) as H.
  unfold unused in *.
  rewrite List.filter_app, firstn_app.
  replace (count - _)%nat with 0%nat by lia.
  simpl. now rewrite app_nil_r.
Qed.

(** The allocation only depends on which indices are used. *)
Lemma next_free_ext used1 used2 count :
  (forall z, In z used1 <-> In z used2) ->
  next_free used1 count = next_free used2 count.
Proof.
  intros Hext.
  set (n := (length used1 + length used2 + count)%nat).
  rewrite (next_free_bound used1 count n) by (unfold n; lia).
  rewrite (next_free_bound used2 count n) by (unfold n; lia).
  f_equal. apply List.filter_ext. intros z.
  destruct (unused used1 z) eqn:H1, (unused used2 z) eqn:H2; try reflexivity.
  - apply unused_In in H1. apply not_true_iff_false in H2.
    exfalso. apply H2. apply unused_In. now rewrite <- Hext.
  - apply unused_In in H2. apply not_true_iff_false in H1.
    exfalso. apply H1. apply unused_In. now rewrite Hext.
Qed.

Lemma next_free_length used count : length (next_free used count) = count.
Proof.
  unfold next_free. rewrite length_firstn.
  pose proof (free_cands_enough used (length used + count) count
                (Nat.le_refl _)) as H.
  lia.
Qed.

Lemma next_free_sorted used count : StronglySorted Z.lt (next_free used count).
Proof. apply firstn_sorted, filter_sorted, cands_sorted. Qed.

Lemma next_free_In used count z :
  In z (next_free used count) -> (0 <= z)%Z /\ ~ In z used.
Proof.
  unfold next_free. intros H. apply firstn_In, List.filter_In in H.
  destruct H as [Hc Hu]. apply cands_In in Hc. split; [lia |].
  now apply unused_In.
Qed.

(** In a sorted list, what lies below a member of a prefix is in the
    prefix. *)
Lemma firstn_sorted_below n (l : list Z) z y :
  StronglySorted Z.lt l -> In z (firstn n l) -> In y l -> (y < z)%Z ->
  In y (firstn n l).
Proof.
  intros Hs. revert n. induction Hs as [| a l Hs IH Hall]; intros n Hz Hy Hlt.
  - destruct Hy.
  - destruct n as [| n]; [destruct Hz |]. simpl in *.
    rewrite List.Forall_forall in Hall.
    destruct Hy as [-> | Hy]; [now left |].
    destruct Hz as [-> | Hz].
    + specialize (Hall _ Hy). lia.
    + right. now apply IH.
Qed.

Lemma next_free_smallest used count z y :
  In z (next_free used count) -> (0 <= y < z)%Z -> ~ In y used ->
  In y (next_free used count).
Proof.
  unfold next_free. intros Hz Hy Hfree.
  apply firstn_sorted_below with (z := z); try assumption; try lia.
  - apply filter_sorted, cands_sorted.
  - apply firstn_In, List.filter_In in Hz. destruct Hz as [Hz _].
    apply (cands_In (length used + count)) in Hz.
    apply List.filter_In. split.
    + apply (cands_In (length used + count)). lia.
    + now apply unused_In.
Qed.

(** C1. For every store and every fingerprint (or none), the result of
    [get_next_rngruns(count)] has [count] entries, in increasing order,
    none negative and none used as a repetition index by a result
    sharing the fingerprint, and every unused index below an entry is an
    entry as well: it is the list of the [count] smallest unused
    indices.  With no index used the next one is 0; with the used set
    {2} it is 0; with the used set {0,2} it is 1, and the next three are
    1, 3, 4. *)
Theorem get_next_rngruns_smallest_unused
  (db : Database) (fp : option combination) :
  let used := used_rngruns db fp in
  (forall count,
      let r := get_next_rngruns db fp count in
      length r = count /\
      StronglySorted Z.lt r /\
      (forall z, In z r -> (0 <= z)%Z /\ ~ In z used) /\
      (forall z y, In z r -> (0 <= y < z)%Z -> ~ In y used -> In y r)) /\
  (used = [] -> get_next_rngruns db fp 1 = [0%Z]) /\
  ((forall z, In z used <-> z = 2%Z) -> get_next_rngruns db fp 1 = [0%Z]) /\
  ((forall z, In z used <-> z = 0%Z \/ z = 2%Z) ->
   get_next_rngruns db fp 1 = [1%Z] /\
   get_next_rngruns db fp 3 = [1%Z; 3%Z; 4%Z]).
Proof.
  intros used. unfold get_next_rngruns. fold used.
  assert (forall l, (forall z, In z used <-> In z l) ->
                    forall count, next_free used count = next_free l count)
    as Hset by (intros l Hl count; now apply next_free_ext).
  split; [| split; [| split]].
  - intros count. cbv zeta.
    split; [apply next_free_length |].
    split; [apply next_free_sorted |].
    split.
    + intros z Hz. now apply next_free_In in Hz.
    + intros z y. apply next_free_smallest.
  - intros ->. reflexivity.
  - intros H. rewrite (Hset [2%Z]); [reflexivity |].
    intros z. rewrite H. simpl. intuition congruence.
  - intros H.
    assert (forall z, In z used <-> In z [0%Z; 2%Z]) as H'
      by (intros z; rewrite H; simpl; intuition congruence).
    split; rewrite (Hset _ H'); reflexivity.
Qed.


(** ** Idempotence of the execution engine *)

Lemma shares_Some f r :
  shares (Some f) r = true <-> fingerprint (params r) = f.
Proof. unfold shares. apply bool_decide_eq_true. Qed.

Lemma fingerprint_insert_rngrun c v :
  fingerprint (<[rngrun := v]> (fingerprint c)) = fingerprint c.
Proof.
  unfold fingerprint. rewrite delete_insert_eq. apply delete_delete_eq.
Qed.

Lemma insert_result_inl db r db' :
  insert_result db r = inl db' ->
  results db' = results db ++ [r] /\ declared_params db' = declared_params db.
Proof.
  unfold insert_result. case_bool_decide; [| discriminate].
  intros [= <-]. simpl. auto.
Qed.

(** A run that completes has appended one result per combination, in
    order, with the combination as its parameters. *)
Lemma run_all_inl dispatch db todo db' :
  run_all dispatch db todo = inl db' ->
  exists rs, results db' = results db ++ rs /\ map params rs = todo /\
             declared_params db' = declared_params db.
Proof.
  revert db. induction todo as [| c rest IH]; intros db; simpl.
  - intros [= <-]. exists []. now rewrite app_nil_r.
  - destruct (dispatch _ c) as [[[[id dt] out] err] |]; [| discriminate].
    destruct (insert_result db _) as [db1 | e] eqn:Hins; [| discriminate].
    intros Hrun. apply insert_result_inl in Hins. destruct Hins as [Hres Hdecl].
    apply IH in Hrun. destruct Hrun as (rs & Hrs & Hmap & Hd).
    eexists (_ :: rs). rewrite Hrs, Hres, <- app_assoc. simpl.
    repeat split; [now rewrite Hmap | congruence].
Qed.

Lemma existing_app db db' f rs :
  results db' = results db ++ rs ->
  existing db' f =
  (existing db f + length (List.filter (shares (Some f)) rs))%nat.
Proof.
  intros H. unfold existing, sharing. now rewrite H, List.filter_app, length_app.
Qed.

Lemma missing_for_length db runs f :
  length (missing_for db runs f) = (runs - existing db f)%nat.
Proof.
  unfold missing_for. destruct (Nat.leb_spec runs (existing db f)); simpl.
  - lia.
  - rewrite length_map. apply next_free_length.
Qed.

Lemma missing_for_fingerprint db runs c0 c :
  In c (missing_for db runs (fingerprint c0)) ->
  fingerprint c = fingerprint c0.
Proof.
  unfold missing_for. destruct (runs <=? _)%nat; [intros [] |].
  intros H. apply in_map_iff in H. destruct H as (i & <- & _).
  apply fingerprint_insert_rngrun.
Qed.

(** The results of one fingerprint's missing combinations all count for
    that fingerprint. *)
Lemma count_flat_map (P : combination -> bool)
      (g : combination -> list combination) fs f :
  In f fs -> (forall c, In c (g f) -> P c = true) ->
  (length (g f) <= length (List.filter P (flat_map g fs)))%nat.
Proof.
  intros Hin Hall. induction fs as [| a fs IH]; [destruct Hin |].
  simpl. rewrite List.filter_app, length_app.
  destruct Hin as [-> | Hin].
  - assert (List.filter P (g f) = g f) as ->; [| lia].
    apply forallb_filter_id. apply forallb_forall. exact Hall.
  - specialize (IH Hin). lia.
Qed.

Lemma filter_shares_params f rs :
  length (List.filter (shares (Some f)) rs) =
  length (List.filter (fun c => bool_decide (fingerprint c = f)) (map params rs)).
Proof.
  induction rs as [| r rs IH]; simpl; [reflexivity |].
  destruct (bool_decide _); simpl; now rewrite IH.
Qed.

Lemma expand_nil db spec runs :
  (forall f, In f (fingerprints spec) -> (runs <= existing db f)%nat) ->
  expand db spec runs = [].
Proof.
  unfold expand. induction (fingerprints spec) as [| f fs IH]; intros H; simpl.
  - reflexivity.
  - rewrite IH by (intros g Hg; apply H; now right).
    unfold missing_for. specialize (H f (or_introl eq_refl)).
    apply Nat.leb_le in H. now rewrite H.
Qed.

(** C8. When [run_missing_simulations(param_spec, runs)] completes, every
    fingerprint of the specification has at least [runs] stored
    repetitions, so the same call on the resulting store finds no missing
    combination and returns the store as it is without dispatching
    anything, whatever the runner would do. *)
Theorem run_missing_simulations_idempotent dispatch db param_spec runs db' :
  run_missing_simulations dispatch db param_spec runs = inl db' ->
  (forall f, In f (fingerprints param_spec) -> (runs <= existing db' f)%nat) /\
  expand db' param_spec runs = [] /\
  (forall dispatch',
      run_missing_simulations dispatch' db' param_spec runs = inl db').
Proof.
  unfold run_missing_simulations. intros Hrun.
  apply run_all_inl in Hrun. destruct Hrun as (rs & Hres & Hmap & _).
  assert (forall f, In f (fingerprints param_spec) ->
                    (runs <= existing db' f)%nat) as Hfull.
  { intros f Hf. rewrite (existing_app db db' f rs Hres).
    rewrite filter_shares_params, Hmap. unfold expand.
    pose proof (count_flat_map (fun c => bool_decide (fingerprint c = f))
                  (missing_for db runs) (fingerprints param_spec) f Hf) as Hc.
    rewrite missing_for_length in Hc.
    assert (forall c, In c (missing_for db runs f) ->
                      bool_decide (fingerprint c = f) = true) as Hall.
    { intros c Hc'. apply bool_decide_eq_true.
      unfold fingerprints in Hf. apply in_map_iff in Hf.
      destruct Hf as (c0 & <- & _). eapply missing_for_fingerprint, Hc'. }
    specialize (Hc Hall). lia. }
  split; [exact Hfull |].
  split; [now apply expand_nil |].
  intros dispatch'. now rewrite expand_nil.
Qed.

End CampaignFacts.

(** * The statements at the concrete inputs *)

Module Witnesses.
Import Examples Runner.

Lemma get_next_rngruns_smallest_unused_witness :
  (forall z, In z (Campaign.used_rngruns database_2_0 None) <->
             z = 0%Z \/ z = 2%Z) /\
  Campaign.get_next_rngruns database_2_0 None 1 = [1%Z] /\
  Campaign.get_next_rngruns database_2_0 None 3 = [1%Z; 3%Z; 4%Z].
Proof.
  assert (forall z, In z (Campaign.used_rngruns database_2_0 None) <->
                    z = 0%Z \/ z = 2%Z) as H.
  { intros z.
    replace (Campaign.used_rngruns database_2_0 None) with [2%Z; 0%Z]
      by (vm_compute; reflexivity).
    simpl. intuition congruence. }
  split; [exact H |].
  exact (proj2 (proj2 (proj2
           (CampaignFacts.get_next_rngruns_smallest_unused database_2_0 None)))
           H).
Defined.

Lemma run_missing_simulations_idempotent_witness :
  Campaign.run_missing_simulations dispatch database_2_0 param_spec 2
  = inl database_run /\
  length (Campaign.results database_run) = 4%nat /\
  Campaign.expand database_run param_spec 2 = [] /\
  Campaign.run_missing_simulations (fun _ _ => None) database_run param_spec 2
  = inl database_run.
Proof.
  assert (Campaign.run_missing_simulations dispatch database_2_0 param_spec 2
          = inl database_run) as H by (vm_compute; reflexivity).
  split; [exact H |]. split; [vm_compute; reflexivity |].
  destruct (CampaignFacts.run_missing_simulations_idempotent
              dispatch database_2_0 param_spec 2 database_run H)
    as (_ & Hnone & Hagain).
  split; [exact Hnone | apply Hagain].
Defined.

Lemma script_resolution_witness :
  Build.configure_and_build (negb (String.eqb "/ns-3" EmptyString)) build_ok
  = Ok tt /\
  (exists self,
     init abspath "/ns-3" "foo" true build_ok programs = Ok self /\
     script_executable self = "/ns-3/foo") /\
  (exists self,
     init abspath "/ns-3" "foo" true build_ok MoreExamples.other_programs
     = Ok self /\
     script_executable self = "/ns-3/foo").
Proof.
  assert (Build.configure_and_build
            (negb (String.eqb "/ns-3" EmptyString)) build_ok = Ok tt) as H
    by (vm_compute; reflexivity).
  split; [exact H |]. split.
  - apply (proj2 (proj2 (proj2
             (ConstructionFacts.script_resolution abspath "/ns-3" "foo" true
                build_ok programs H))) eq_refl).
    intros program. reflexivity.
  - apply (proj2 (proj2 (proj2
             (ConstructionFacts.script_resolution abspath "/ns-3" "foo" true
                build_ok MoreExamples.other_programs H))) eq_refl).
    intros program. unfold MoreExamples.other_programs. simpl. tauto.
Defined.

Lemma get_build_output_negative_returncode_witness :
  (Build.bp_returncode build_killed < 0)%Z /\
  yielded (Build.get_build_output build_killed) =
    omap Build.parse_line (Build.bp_stdout build_killed) /\
  raised (Build.get_build_output build_killed) = None /\
  Build.configure_and_build true build_killed = Ok tt.
Proof.
  assert (Build.bp_returncode build_killed < 0)%Z as H by reflexivity.
  split; [exact H |].
  exact (BuildFacts.get_build_output_negative_returncode build_killed H).
Defined.


Lemma run_one_negative_returncode_yields_witness :
  heap store !! 1%positive = Some combination1 /\
  Dict.wf combination1 = true /\
  (returncode (outcome_of simulator_crash uuid4 foo_runner "/data" store
                 combination1) < 0)%Z /\
  exists r,
    fst (run_one simulator_crash uuid4 time_time foo_runner "/data"
           1%positive store) = Ok r /\
    r_params r = fresh (dom (heap store)) /\
    Dict.get "id" (r_meta r) = Some (MStr (uuid4 (uuids store))).
Proof.
  assert (heap store !! 1%positive = Some combination1) as H1
    by (vm_compute; reflexivity).
  assert (Dict.wf combination1 = true) as H2 by reflexivity.
  assert (returncode (outcome_of simulator_crash uuid4 foo_runner "/data"
                        store combination1) < 0)%Z as H3 by reflexivity.
  split; [exact H1 |]. split; [exact H2 |]. split; [exact H3 |].
  exact (RunnerFacts.run_one_negative_returncode_yields
           simulator_crash uuid4 time_time foo_runner "/data" 1%positive
           store combination1 H1 H2 H3).
Defined.

Lemma run_one_command_and_capture_witness :
  heap store !! 1%positive = Some combination1 /\
  Dict.wf combination1 = true /\
  exists sp,
    spawned (snd (run_one simulator_ok uuid4 time_time foo_runner "/data"
                    1%positive store)) = [sp] /\
    sp_argv sp = ["/ns-3/foo"; "--nWifi=3"; "--verbose=False"] /\
    sp_cwd sp = "/data/run-0" /\
    fs (snd (run_one simulator_ok uuid4 time_time foo_runner "/data"
               1%positive store)) !! "/data/run-0" = Some Dir /\
    fs (snd (run_one simulator_ok uuid4 time_time foo_runner "/data"
               1%positive store)) !! "/data/run-0/stdout"
    = Some (File (stdout (simulator_ok 0 sp))).
Proof.
  assert (heap store !! 1%positive = Some combination1) as H1
    by (vm_compute; reflexivity).
  assert (Dict.wf combination1 = true) as H2 by reflexivity.
  split; [exact H1 |]. split; [exact H2 |].
  destruct (RunnerFacts.run_one_command_and_capture
              simulator_ok uuid4 time_time foo_runner "/data" 1%positive
              store combination1 H1 H2)
    as (sp & Hsp & Hargv & _ & Hcwd & _ & _ & Hdir & Hout & _).
  exists sp. split; [exact Hsp |]. split; [exact Hargv |].
  split; [exact Hcwd |]. split; [apply Hdir; reflexivity | exact Hout].
Defined.

Lemma run_simulations_in_order_fail_fast_witness :
  Forall (fun p => valid (heap store) p = true)
         [1%positive; 2%positive; 3%positive] /\
  exists rs x st',
    run_simulations simulator_second_fails uuid4 time_time foo_runner
      [1%positive; 2%positive; 3%positive] "/data" store = (rs, Some x, st') /\
    length rs = 1%nat /\
    length (spawned st') = 2%nat /\
    exists err out cmd, x = SimulationError combination2 err out cmd.
Proof.
  assert (Forall (fun p => valid (heap store) p = true)
                 [1%positive; 2%positive; 3%positive]) as Hv
    by (repeat constructor).
  split; [exact Hv |].
  destruct (run_simulations simulator_second_fails uuid4 time_time foo_runner
              [1%positive; 2%positive; 3%positive] "/data" store)
    as [[rs e] st'] eqn:Hrun.
  assert (length rs = 1%nat /\ exists x, e = Some x) as [Hlen [x ->]].
  { vm_compute in Hrun. injection Hrun as <- <- _. split; [reflexivity | eauto]. }
  destruct (RunnerFacts.run_simulations_in_order_fail_fast
              simulator_second_fails uuid4 time_time foo_runner "/data"
              [1%positive; 2%positive; 3%positive] store rs (Some x) st'
              Hv Hrun)
    as (_ & _ & _ & (news & Hnews & Hcount & _) & _
        & p & err & out & cmd & Hp & Hx).
  exists rs, x, st'. split; [reflexivity |]. split; [exact Hlen |].
  split; [rewrite Hnews, length_app, Hcount, Hlen; reflexivity |].
  exists err, out, cmd. rewrite Hx. rewrite Hlen in Hp.
  injection Hp as <-. reflexivity.
Defined.

Lemma run_simulations_keeps_its_input_witness :
  Forall (fun p => valid (heap store) p = true)
         [1%positive; 2%positive; 3%positive] /\
  exists rs e st',
    run_simulations simulator_ok uuid4 time_time foo_runner
      [1%positive; 2%positive; 3%positive] "/data" store = (rs, e, st') /\
    heap st' !! 1%positive = Some combination1 /\
    heap st' !! 2%positive = Some combination2 /\
    heap st' !! 3%positive = Some combination3.
Proof.
  assert (Forall (fun p => valid (heap store) p = true)
                 [1%positive; 2%positive; 3%positive]) as Hv
    by (repeat constructor).
  split; [exact Hv |].
  destruct (run_simulations simulator_ok uuid4 time_time foo_runner
              [1%positive; 2%positive; 3%positive] "/data" store)
    as [[rs e] st'] eqn:Hrun.
  destruct (RunnerFacts.run_simulations_keeps_its_input
              simulator_ok uuid4 time_time foo_runner "/data"
              [1%positive; 2%positive; 3%positive] store rs e st' Hv Hrun)
    as (_ & Hin & _).
  exists rs, e, st'. split; [reflexivity |].
  rewrite !Hin by (simpl; tauto). repeat split; vm_compute; reflexivity.
Defined.

Lemma spawned_environment_witness :
  init abspath "/ns-3" "foo" true build_ok programs = Ok foo_runner /\
  environment foo_runner =
    [("LD_LIBRARY_PATH", "/ns-3/build/optimized:/ns-3/build/optimized/lib");
     ("DYLD_LIBRARY_PATH", "/ns-3/build/optimized:/ns-3/build/optimized/lib")].
Proof.
  assert (init abspath "/ns-3" "foo" true build_ok programs = Ok foo_runner)
    as H by (vm_compute; reflexivity).
  split; [exact H |].
  destruct (RunnerFacts.spawned_environment abspath "/ns-3" "foo" true
              build_ok programs foo_runner H) as (Henv & _).
  rewrite Henv. reflexivity.
Defined.

End Witnesses.

(** * Further properties of the runner *)

(** ** Which program the constructor binds *)

Module InitExtra.
Import Init.

(** X1. The program bound is the first of the candidates with the shortest
    name: every candidate listed before it has a longer name and none
    has a shorter one. *)
Theorem shortest_candidate_is_bound
  (abspath : string -> string) (path script : string)
  (programs : list string) :
  script <> EmptyString ->
  matches abspath path script programs <> [] ->
  exists best l1 l2,
    matches abspath path script programs = l1 ++ best :: l2 /\
    script_executable abspath path script programs
    = Ok (abspath (OsPath.join path (m_name best))) /\
    (forall m, In m l1 -> (Py.len (m_name best) < Py.len (m_name m))%nat) /\
    (forall m, In m l2 -> (Py.len (m_name best) <= Py.len (m_name m))%nat).
Proof.
  intros Hs Hne.
  destruct (InitFacts.script_executable_resolution abspath path script programs)
    as (_ & _ & Hbest & _).
  destruct (Hbest Hs Hne) as (best & kbest & l1 & l2 & Hsplit & Hexe & Hk & H1 & H2).
  exists best, l1, l2. split; [assumption |]. split.
  - rewrite Hexe. f_equal.
    apply (InitFacts.candidate_name abspath path script programs).
    rewrite Hsplit. apply in_or_app. right. now left.
  - split; intros m Hm.
    + destruct (H1 m Hm) as (k & Hkm & Hlt).
      now apply (InitFacts.percentage_order script m best k kbest Hs Hkm Hk).
    + destruct (H2 m Hm) as (k & Hkm & Hle).
      now apply (InitFacts.percentage_order script m best k kbest Hs Hkm Hk).
Qed.

(** X2. A runnable program named exactly like the script is the one bound,
    wherever it stands among the runnable programs. *)
Theorem exact_name_is_bound
  (abspath : string -> string) (path script : string)
  (programs : list string) :
  script <> EmptyString -> In script programs ->
  script_executable abspath path script programs
  = Ok (abspath (OsPath.join path script)).
Proof.
  intros Hs Hin.
  set (exact := {| m_name := script;
                   m_path := abspath (OsPath.join path script) |}).
  assert (In exact (matches abspath path script programs)) as Hexact.
  { apply InitFacts.matches_In. exists script. split; [assumption |].
    split; [| reflexivity]. exists EmptyString, EmptyString.
    simpl. symmetry. apply PyFacts.append_nil_r. }
  destruct (InitFacts.script_executable_resolution abspath path script programs)
    as (_ & _ & Hbest & _).
  destruct (Hbest Hs) as (best & kbest & l1 & l2 & Hsplit & Hexe & Hk & H1 & H2).
  { intros Hnil. rewrite Hnil in Hexact. destruct Hexact. }
  assert (In best (matches abspath path script programs)) as Hbin
    by (rewrite Hsplit; apply in_or_app; right; now left).
  destruct (InitFacts.candidate_name _ _ _ _ _ Hbin) as ((pre & post & Hname) & Hpath).
  assert (Py.len script <= Py.len (m_name best))%nat as Hge
    by (rewrite Hname, !PyFacts.length_append; lia).
  assert (Py.len (m_name best) <= Py.len script)%nat as Hle.
  { destruct (InitFacts.percentage_Ok script exact) as (k & Hkx);
      [exact Hs |].
    rewrite Hsplit in Hexact. apply in_app_or in Hexact.
    destruct Hexact as [Hx | [Hx | Hx]].
    - destruct (H1 exact Hx) as (k' & Hk' & Hlt).
      apply (InitFacts.percentage_order script exact best k' kbest Hs Hk' Hk) in Hlt.
      simpl in Hlt. lia.
    - subst best. simpl. lia.
    - destruct (H2 exact Hx) as (k' & Hk' & Hle).
      apply (InitFacts.percentage_order script exact best k' kbest Hs Hk' Hk) in Hle.
      exact Hle. }
  assert (m_name best = script) as Hsame.
  { rewrite Hname. apply InitFacts.same_length_substring. rewrite <- Hname. lia. }
  rewrite Hexe, Hpath, Hsame. reflexivity.
Qed.

Lemma str_in_empty s : Py.str_in EmptyString s = true.
Proof. rewrite PyFacts.str_in_unfold. now destruct s. Qed.

Lemma max_from_empty_script l :
  forall best kbest,
    (kbest == 0)%Q ->
    Forall (fun m => m_name m <> EmptyString) l ->
    max_from EmptyString best kbest l = Ok best.
Proof.
  induction l as [| x r IH]; intros best kbest Hk Hall; [reflexivity |].
  apply Forall_cons in Hall. destruct Hall as [Hx Hr].
  simpl. unfold percentage. unfold Py.len at 1.
  destruct (String.length (m_name x)) as [| n] eqn:E;
    [destruct (m_name x); [congruence | discriminate] |].
  change (Z.of_nat (Py.len EmptyString)) with 0%Z.
  assert (Qcompare kbest (0 # Pos.of_succ_nat n) <> Lt) as Hcmp.
  { intros Hlt. apply Qlt_alt in Hlt. rewrite Hk in Hlt.
    unfold Qlt in Hlt. simpl in Hlt. lia. }
  destruct (Qcompare kbest (0 # Pos.of_succ_nat n)); try congruence;
    now apply IH.
Qed.

(** X3. With the empty script name every runnable program is a candidate
    and all quotients are zero: the first runnable program is bound. *)
Theorem empty_script_binds_first_program
  (abspath : string -> string) (path first : string) (others : list string) :
  Forall (fun program => program <> EmptyString) (first :: others) ->
  script_executable abspath path EmptyString (first :: others)
  = Ok (abspath (OsPath.join path first)).
Proof.
  intros Hall. unfold script_executable, matches.
  assert (forall l : list string,
             List.filter (fun program => Py.str_in EmptyString program) l = l)
    as Hfilter.
  { intros l. induction l as [| a l IH]; simpl; [reflexivity |].
    now rewrite str_in_empty, IH. }
  rewrite Hfilter. apply Forall_cons in Hall. destruct Hall as [Hfirst Hothers].
  cbn [map select_match]. unfold percentage at 1. cbn [m_name].
  destruct (Py.len first) as [| n] eqn:E;
    [destruct first; [congruence | discriminate] |].
  rewrite max_from_empty_script; [reflexivity | reflexivity |].
  apply Forall_map. eapply Forall_impl; [exact Hothers |]. auto.
Qed.

End InitExtra.

Module ConstructionExtra.

(** X4. A build that returns a positive code aborts construction with the
    compilation error, whatever the script and the runnable programs:
    the script is not looked for. *)
Theorem build_failure_aborts_construction
  (abspath : string -> string) (path_ script_ : string) (optimized : bool)
  (build : Build.process) (programs : list string) :
  path_ <> EmptyString ->
  (Build.bp_returncode build > 0)%Z ->
  Runner.init abspath path_ script_ optimized build programs
  = Raise (CompilationError (Build.bp_stderr build) EmptyString).
Proof.
  intros Hpath Hrc. unfold Runner.init, Build.configure_and_build.
  destruct (String.eqb_spec path_ EmptyString) as [| _]; [congruence |].
  cbn [negb]. rewrite BuildFacts.consume_raised.
  destruct (BuildFacts.get_build_output_ends build) as [_ Hraised].
  rewrite Hraised.
  destruct (Z.gtb_spec (Build.bp_returncode build) 0); [reflexivity | lia].
Qed.

End ConstructionExtra.

(** ** What the progress generator reports *)

Module BuildExtra.
Import Re Build.

(** X5. On a build output of ASCII lines, the generator yields one pair
    for each line that reports progress, in the order of the lines,
    whatever the return code of the build; and an ASCII line reports
    progress exactly when, once stripped, it holds an opening bracket,
    a run of white space, a run of digits, a slash, a run of digits and
    a closing bracket. *)
Theorem progress_of_the_matching_lines (p : process) :
  Forall (fun output => Py.isascii output = true) (bp_stdout p) ->
  yielded (get_build_output p) = omap parse_line (bp_stdout p) /\
  forall output,
    In output (bp_stdout p) ->
    is_Some (parse_line output) <->
    exists pre ws c t post,
      strip output = pre +:+ "[" +:+ ws +:+ c +:+ "/" +:+ t +:+ "]" +:+ post /\
      all_in Space ws = true /\
      all_in Digit c = true /\ (1 <= Py.len c)%nat /\
      all_in Digit t = true /\ (1 <= Py.len t)%nat.
Proof.
  intros _. split; [apply BuildFacts.get_build_output_ends |].
  intros output _. split.
  - intros [[current total] H]. apply BuildFacts.parse_line_Some in H.
    destruct H as (pre & ws & c & t & post & H1 & H2 & H3 & H4 & H5 & H6 & _).
    exists pre, ws, c, t, post. auto 10.
  - intros (pre & ws & c & t & post & H1 & H2 & H3 & H4 & H5 & H6).
    eapply BuildFacts.parse_line_found; eassumption.
Qed.

(** X6. A build that returns a positive code: the generator first yields all
    the progress of the output, then raises the compilation error, which
    holds all of the error stream and an empty output stream (the pipe
    has been read to its end); the constructor's call raises it too. *)
Theorem positive_returncode_raises_after_the_progress (p : process) :
  (bp_returncode p > 0)%Z ->
  yielded (get_build_output p) = omap parse_line (bp_stdout p) /\
  raised (get_build_output p)
  = Some (CompilationError (bp_stderr p) EmptyString) /\
  configure_and_build true p
  = Raise (CompilationError (bp_stderr p) EmptyString).
Proof.
  intros Hrc. destruct (BuildFacts.get_build_output_ends p) as [Hy Hr].
  destruct (Z.gtb_spec (bp_returncode p) 0); [| lia].
  split; [assumption |]. split; [assumption |].
  unfold configure_and_build. now rewrite BuildFacts.consume_raised, Hr.
Qed.

Lemma digit_not_space a : is_digit a = true -> is_space a = false.
Proof.
  unfold is_digit, is_space. intros H.
  apply andb_prop in H. destruct H as [H1 H2].
  apply Nat.leb_le in H1. apply Nat.leb_le in H2.
  apply orb_false_intro; apply andb_false_intro2 || apply andb_false_intro1;
    apply Nat.leb_gt; lia.
Qed.

Lemma span_head_outside c a s :
  in_cls c a = false -> span c (String a s) = 0%nat.
Proof. intros H. simpl. now rewrite H. Qed.

(** Inside a run of digits every offset starts with a digit. *)
Lemma drop_in_digits c j :
  all_in Digit c = true -> (j < Py.len c)%nat ->
  exists a x, drop j c = String a x /\ is_digit a = true.
Proof.
  revert c. induction j as [| j IH]; intros c Hc Hj.
  - destruct c as [| a c]; [unfold Py.len in Hj; simpl in Hj; lia |].
    simpl in Hc. apply andb_prop in Hc. exists a, c. tauto.
  - destruct c as [| a c]; [unfold Py.len in Hj; simpl in Hj; lia |].
    simpl in Hc. apply andb_prop in Hc. simpl. apply IH; [tauto |].
    unfold Py.len in *. simpl in Hj. lia.
Qed.

(** The matcher on a text that begins with the bracketed pair. *)
Lemma exec_progress ws c t post :
  all_in Space ws = true ->
  all_in Digit c = true -> (1 <= Py.len c)%nat ->
  all_in Digit t = true -> (1 <= Py.len t)%nat ->
  exec progress_re ("[" +:+ ws +:+ c +:+ "/" +:+ t +:+ "]" +:+ post)
  = Some ([c; t], drop (span Dot post) post).
Proof.
  intros Hws Hc Hclen Ht Htlen. unfold progress_re.
  rewrite ReExtra.exec_Lit.
  assert (exists a x, c = String a x /\ is_digit a = true) as (a & x & -> & Ha).
  { destruct (drop_in_digits c 0 Hc) as (a & x & E & Ha); [lia |].
    exists a, x. simpl in E. destruct c; [discriminate |]. auto. }
  change (Some ([String a x; t], drop (span Dot post) post))
    with (Some ((if false then [ws] else []) ++ [String a x; t],
                drop (span Dot post) post)).
  apply ReExtra.exec_Rep_at; [assumption | lia | |].
  { intros j Hj. rewrite ReExtra.span_exact in Hj; [lia | assumption |].
    apply span_head_outside. simpl. now apply digit_not_space. }
  change (Some ([String a x; t], drop (span Dot post) post))
    with (Some ((if true then [String a x] else []) ++ [t],
                drop (span Dot post) post)).
  apply ReExtra.exec_Rep_at; [assumption | assumption | |].
  { intros j Hj. rewrite ReExtra.drop_drop_append by lia.
    destruct (drop_in_digits (String a x) j Hc) as (b & y & -> & Hb); [lia |].
    apply ReExtra.exec_Lit_fail. cbn [String.append].
    apply ReExtra.startswith_other_char. intros ->. discriminate. }
  rewrite ReExtra.exec_Lit.
  change (Some ([t], drop (span Dot post) post))
    with (Some ((if true then [t] else []) ++ [],
                drop (span Dot post) post)).
  apply ReExtra.exec_Rep_at; [assumption | assumption | |].
  { intros j Hj. rewrite ReExtra.span_exact in Hj; [lia | assumption | reflexivity]. }
  rewrite ReExtra.exec_Lit. apply ReExtra.exec_rest_of_line.
Qed.

(** X7. The numbers reported are those of the first bracket of the line:
    when no opening bracket stands before the pair, the progress of the
    line is the two digit runs of the pair, read in full. *)
Theorem progress_is_the_first_bracketed_pair output pre ws c t post :
  strip output = pre +:+ "[" +:+ ws +:+ c +:+ "/" +:+ t +:+ "]" +:+ post ->
  Py.str_in "[" pre = false ->
  all_in Space ws = true ->
  all_in Digit c = true -> (1 <= Py.len c)%nat ->
  all_in Digit t = true -> (1 <= Py.len t)%nat ->
  parse_line output = Some (int c, int t).
Proof.
  intros Hs Hpre Hws Hc Hclen Ht Htlen. unfold parse_line. rewrite Hs.
  rewrite ReExtra.search_skip.
  - rewrite (ReExtra.search_here _ _ _
               (exec_progress ws c t post Hws Hc Hclen Ht Htlen)).
    reflexivity.
  - intros j Hj. apply ReExtra.exec_Lit_fail.
    now apply ReExtra.startswith_before.
Qed.

End BuildExtra.

(** ** What a batch of simulations leaves behind *)

Module RunnerExtra.
Import Runner Batch.

Lemma append_inv_tail a :
  forall b c, a +:+ c = b +:+ c -> a = b.
Proof.
  induction a as [| x a IH]; intros b c H.
  - destruct b as [| y b]; [reflexivity |].
    apply (f_equal Py.len) in H. rewrite !PyFacts.length_append in H.
    unfold Py.len in H. simpl in H. lia.
  - destruct b as [| y b].
    + apply (f_equal Py.len) in H. rewrite !PyFacts.length_append in H.
      unfold Py.len in H. simpl in H. lia.
    + simpl in H. injection H as -> H. f_equal. eapply IH, H.
Qed.

Lemma last_char_append a b :
  b <> EmptyString -> Py.last_char (a +:+ b) = Py.last_char b.
Proof.
  intros Hb. induction a as [| x a IH]; [reflexivity |].
  simpl. rewrite IH. destruct (a +:+ b) eqn:E; [| reflexivity].
  destruct a; [simpl in E; congruence | discriminate].
Qed.

(** The directory of a plain name under a folder has no trailing
    separator, so that a file name is joined to it with one. *)
Lemma join_plain_name folder id name :
  plain_name id = true -> Py.startswith name "/" = false ->
  OsPath.join (OsPath.join folder id) name
  = OsPath.join folder id +:+ "/" +:+ name.
Proof.
  intros Hid Hname. unfold plain_name in Hid.
  apply andb_prop in Hid. destruct Hid as [Hid Hend].
  apply andb_prop in Hid. destruct Hid as [Hne Hstart].
  apply negb_true_iff in Hne, Hstart, Hend.
  apply String.eqb_neq in Hne.
  destruct (OsPathFacts.join_relative folder id Hstart) as (mid & Hj & _).
  apply OsPathFacts.join_plain; [assumption | |].
  - rewrite Hj. destruct folder; [destruct mid |]; try discriminate.
    simpl. assumption.
  - unfold Py.endswith_char in *. rewrite Hj, last_char_append.
    + now rewrite last_char_append.
    + destruct mid; [simpl; assumption | discriminate].
Qed.

(** Two plain names give the same file under a folder only when they
    are the same name, and never a [stdout] that is a [stderr]. *)
Lemma run_files_apart folder id id' :
  plain_name id = true -> plain_name id' = true ->
  let out := OsPath.join (OsPath.join folder id) "stdout" in
  let err := OsPath.join (OsPath.join folder id) "stderr" in
  let out' := OsPath.join (OsPath.join folder id') "stdout" in
  let err' := OsPath.join (OsPath.join folder id') "stderr" in
  out <> err' /\ err <> out' /\
  (id <> id' -> out <> out' /\ err <> err').
Proof.
  intros Hid Hid' out err out' err'. subst out err out' err'.
  rewrite !join_plain_name by (assumption || reflexivity).
  assert (forall a b, a +:+ "/stdout" <> b +:+ "/stderr") as Hdiff.
  { intros a b H. apply (f_equal Py.last_char) in H.
    rewrite !last_char_append in H by discriminate. discriminate. }
  assert (forall name, OsPath.join folder id +:+ "/" +:+ name
                       = OsPath.join folder id' +:+ "/" +:+ name -> id = id')
    as Hsame.
  { intros name H. apply append_inv_tail in H.
    unfold plain_name in Hid, Hid'.
    apply andb_prop in Hid. destruct Hid as [Hid _].
    apply andb_prop in Hid. destruct Hid as [_ Hs].
    apply andb_prop in Hid'. destruct Hid' as [Hid' _].
    apply andb_prop in Hid'. destruct Hid' as [_ Hs'].
    apply negb_true_iff in Hs, Hs'.
    eapply OsPathFacts.join_inj; eassumption. }
  split; [apply Hdiff |]. split; [intros H; symmetry in H; revert H; apply Hdiff |].
  intros Hne. split; intros H; apply Hne; eapply Hsame, H.
Qed.

Section Oracles.

Variable simulator : nat -> spawn -> outcome.
Variable uuid4 : nat -> string.
Variable time_time : nat -> float.
Variable self : runner.
Variable data_folder : string.

(** One iteration, whatever the reference holds: the counters it
    advances, the directory of its process, the paths it writes and the
    meta of its result. *)
Lemma run_one_effects parameter st :
  let run := run_one simulator uuid4 time_time self data_folder parameter st in
  let temp_dir := OsPath.join data_folder (uuid4 (uuids st)) in
  uuids (snd run) = S (uuids st) /\
  ticks (snd run) = S (S (ticks st)) /\
  (exists sp,
      spawned (snd run) = spawned st ++ [sp] /\ sp_cwd sp = temp_dir /\
      fs (snd run) =
      <[OsPath.join temp_dir "stderr" :=
          File (stderr (simulator (length (spawned st)) sp))]>
        (<[OsPath.join temp_dir "stdout" :=
             File (stdout (simulator (length (spawned st)) sp))]>
           (ensure_dir temp_dir (fs st)))) /\
  (forall r, fst run = Ok r ->
     r_meta r =
     [("id", MStr (uuid4 (uuids st)));
      ("elapsed_time",
       MFloat (PrimFloat.sub (time_time (S (ticks st)))
                             (time_time (ticks st))))]).
Proof.
  unfold run_one, call. cbn [heap fs spawned uuids ticks].
  destruct (_ >? 0)%Z; cbn [fst snd uuids ticks spawned fs];
    (split; [reflexivity |]); (split; [reflexivity |]);
    (split; [eexists; split; [reflexivity |]; split; reflexivity |]).
  - intros r H. discriminate.
  - intros r H. injection H as <-. reflexivity.
Qed.

Lemma run_simulations_cons p rest st :
  run_simulations simulator uuid4 time_time self (p :: rest) data_folder st =
  match run_one simulator uuid4 time_time self data_folder p st with
  | (Raise e, st') => ([], Some e, st')
  | (Ok r, st') =>
      let '(rs, e, st'') :=
        run_simulations simulator uuid4 time_time self rest data_folder st' in
      (r :: rs, e, st'')
  end.
Proof. reflexivity. Qed.

(** X8. The id of a result names the directory its process ran in: the i-th
    result of a batch carries the i-th id drawn and the difference of
    the two clock readings around its process, the i-th process started
    ran in the directory of that id under [data_folder], and the batch
    draws one id and reads the clock twice per combination attempted. *)
Theorem result_ids_name_the_directories parameter_list :
  forall st rs e st',
    run_simulations simulator uuid4 time_time self parameter_list data_folder st
    = (rs, e, st') ->
    uuids st' = (uuids st + attempted rs e)%nat /\
    ticks st' = (ticks st + 2 * attempted rs e)%nat /\
    length (spawned st') = (length (spawned st) + attempted rs e)%nat /\
    (forall i sp, spawned st' !! (length (spawned st) + i)%nat = Some sp ->
       sp_cwd sp = OsPath.join data_folder (uuid4 (uuids st + i))) /\
    (forall i r, rs !! i = Some r ->
       r_meta r =
       [("id", MStr (uuid4 (uuids st + i)));
        ("elapsed_time",
         MFloat (PrimFloat.sub (time_time (ticks st + 2 * i + 1))
                               (time_time (ticks st + 2 * i))))]).
Proof.
  induction parameter_list as [| p rest IH]; intros st rs e st' Hrun.
  - simpl in Hrun. injection Hrun as <- <- <-. unfold attempted. simpl.
    repeat split; try lia.
    + intros i sp H. apply lookup_lt_Some in H. lia.
    + intros i r H. destruct i; discriminate.
  - rewrite run_simulations_cons in Hrun.
    destruct (run_one_effects p st)
      as (Hu & Ht & (sp0 & Hsp & Hcwd & _) & Hmeta).
    destruct (run_one simulator uuid4 time_time self data_folder p st)
      as [[r | x] st1]; cbn [fst snd] in *.
    + destruct (run_simulations simulator uuid4 time_time self rest
                  data_folder st1) as [[rs1 e1] st2] eqn:Hrec.
      injection Hrun as <- <- <-.
      destruct (IH st1 rs1 e1 st2 Hrec) as (Hu1 & Ht1 & Hl1 & Hcwd1 & Hmeta1).
      assert (attempted (r :: rs1) e1 = S (attempted rs1 e1)) as Hatt
        by (unfold attempted; simpl; lia).
      rewrite Hatt. rewrite Hsp, length_app in Hl1. simpl in Hl1.
      split; [lia |]. split; [lia |]. split; [lia |]. split.
      * destruct (RunnerFacts.run_simulations_spawned simulator uuid4
                    time_time self data_folder rest st1) as (news & Hnews & _).
        rewrite Hrec in Hnews. cbn [snd] in Hnews.
        intros [| i] sp Hi.
        -- rewrite Nat.add_0_r in *. rewrite Hnews, Hsp in Hi.
           rewrite <- app_assoc in Hi.
           rewrite lookup_app_r, Nat.sub_diag in Hi by lia.
           injection Hi as <-. exact Hcwd.
        -- replace (uuids st + S i)%nat with (uuids st1 + i)%nat by lia.
           apply Hcwd1. rewrite Hsp, length_app. cbn [length].
           now replace (length (spawned st) + 1 + i)%nat
             with (length (spawned st) + S i)%nat by lia.
      * intros [| i] r' Hi; simpl in Hi.
        -- injection Hi as <-. rewrite (Hmeta r eq_refl).
           replace (uuids st + 0)%nat with (uuids st) by lia.
           replace (ticks st + 2 * 0 + 1)%nat with (S (ticks st)) by lia.
           now replace (ticks st + 2 * 0)%nat with (ticks st) by lia.
        -- rewrite (Hmeta1 i r' Hi), Hu, Ht.
           replace (S (uuids st) + i)%nat with (uuids st + S i)%nat by lia.
           replace (S (S (ticks st)) + 2 * i + 1)%nat
             with (ticks st + 2 * S i + 1)%nat by lia.
           now replace (S (S (ticks st)) + 2 * i)%nat
             with (ticks st + 2 * S i)%nat by lia.
    + injection Hrun as <- <- <-. unfold attempted. simpl.
      split; [lia |]. split; [lia |].
      split; [rewrite Hsp, length_app; simpl; lia |]. split.
      * intros i sp Hi. rewrite Hsp in Hi.
        destruct i as [| i].
        -- rewrite Nat.add_0_r in *. rewrite lookup_app_r in Hi by lia.
           rewrite Nat.sub_diag in Hi. injection Hi as <-. exact Hcwd.
        -- apply lookup_lt_Some in Hi. rewrite length_app in Hi.
           simpl in Hi. lia.
      * intros i r H. destruct i; discriminate.
Qed.


(** [os.makedirs] touches the name and the directories above it, and
    nothing else. *)
Lemma makedirs_frame depth :
  forall name files q,
    q <> name -> ~ In q (parents depth name) ->
    makedirs depth name files !! q = files !! q.
Proof.
  induction depth as [| d IH]; intros name files q Hq Hp;
    rewrite RunnerFacts.makedirs_unfold; cbn [parents] in Hp;
    destruct (head_tail name) as [head tail];
    (rewrite lookup_insert_ne by congruence); [reflexivity |].
  destruct (_ && _); [| reflexivity].
  destruct (files !! head); [reflexivity |].
  apply IH; intros H; apply Hp; [left; congruence | now right].
Qed.


(** What one iteration does to the file system. *)
Lemma run_one_fs parameter st :
  let st1 := snd (run_one simulator uuid4 time_time self data_folder
                          parameter st) in
  let temp_dir := OsPath.join data_folder (uuid4 (uuids st)) in
  (forall q, q <> temp_dir -> ~ In q (above temp_dir) ->
             q <> OsPath.join temp_dir "stdout" ->
             q <> OsPath.join temp_dir "stderr" ->
             fs st1 !! q = fs st !! q) /\
  (forall q nd, fs st !! q = Some nd ->
                q <> OsPath.join temp_dir "stdout" ->
                q <> OsPath.join temp_dir "stderr" ->
                fs st1 !! q = Some nd).
Proof.
  intros st1 temp_dir.
  destruct (run_one_effects parameter st) as (_ & _ & (sp & _ & _ & Hfs) & _).
  fold st1 temp_dir in Hfs. rewrite Hfs. split.
  - intros q H1 Hp H2 H3. rewrite !lookup_insert_ne by congruence.
    unfold ensure_dir. destruct (fs st !! temp_dir); [reflexivity |].
    now apply makedirs_frame.
  - intros q nd Hq H2 H3. rewrite !lookup_insert_ne by congruence.
    now apply RunnerFacts.ensure_dir_kept.
Qed.

(** The same for a batch, over the ids it draws. *)
Lemma run_simulations_fs parameter_list :
  forall st rs e st',
    run_simulations simulator uuid4 time_time self parameter_list data_folder st
    = (rs, e, st') ->
    (forall q,
        (forall i, (i < attempted rs e)%nat ->
           let temp_dir := OsPath.join data_folder (uuid4 (uuids st + i)) in
           q <> temp_dir /\ ~ In q (above temp_dir) /\
           q <> OsPath.join temp_dir "stdout" /\
           q <> OsPath.join temp_dir "stderr") ->
        fs st' !! q = fs st !! q) /\
    (forall q nd,
        fs st !! q = Some nd ->
        (forall i, (i < attempted rs e)%nat ->
           let temp_dir := OsPath.join data_folder (uuid4 (uuids st + i)) in
           q <> OsPath.join temp_dir "stdout" /\
           q <> OsPath.join temp_dir "stderr") ->
        fs st' !! q = Some nd).
Proof.
  induction parameter_list as [| p rest IH]; intros st rs e st' Hrun.
  - simpl in Hrun. injection Hrun as <- <- <-. auto.
  - rewrite run_simulations_cons in Hrun.
    destruct (run_one_fs p st) as (Ha & Hb).
    destruct (run_one_effects p st) as (Hu & _).
    destruct (run_one simulator uuid4 time_time self data_folder p st)
      as [[r | x] st1]; cbn [fst snd] in *.
    + destruct (run_simulations simulator uuid4 time_time self rest
                  data_folder st1) as [[rs1 e1] st2] eqn:Hrec.
      injection Hrun as <- <- <-.
      destruct (IH st1 rs1 e1 st2 Hrec) as (IHa & IHb).
      assert (attempted (r :: rs1) e1 = S (attempted rs1 e1)) as Hatt
        by (unfold attempted; simpl; lia).
      rewrite Hatt. split.
      * intros q Hq. rewrite IHa.
        -- destruct (Hq 0%nat) as (H1 & Hp & H2 & H3); [lia |].
           rewrite Nat.add_0_r in *. now apply Ha.
        -- intros i Hi. rewrite Hu.
           replace (S (uuids st) + i)%nat with (uuids st + S i)%nat by lia.
           apply Hq. lia.
      * intros q nd Hnd Hq. apply IHb.
        -- destruct (Hq 0%nat) as (H2 & H3); [lia |].
           rewrite Nat.add_0_r in *. now apply Hb.
        -- intros i Hi. rewrite Hu.
           replace (S (uuids st) + i)%nat with (uuids st + S i)%nat by lia.
           apply Hq. lia.
    + injection Hrun as <- <- <-. unfold attempted. simpl. split.
      * intros q Hq. destruct (Hq 0%nat) as (H1 & Hp & H2 & H3); [lia |].
        rewrite Nat.add_0_r in *. now apply Ha.
      * intros q nd Hnd Hq. destruct (Hq 0%nat) as (H2 & H3); [lia |].
        rewrite Nat.add_0_r in *. now apply Hb.
Qed.

(** X9. A consumer that stops after [n] calls of [next()] has done exactly
    the work of the first [n] combinations: it has the results and
    leaves the state of a full iteration over those alone, so that no
    process is started for a combination it has not asked for. *)
Theorem next_n_runs_only_what_is_asked n :
  forall parameter_list st,
    next_n simulator uuid4 time_time n self parameter_list data_folder st =
    (fst (fst (run_simulations simulator uuid4 time_time self
                 (take n parameter_list) data_folder st)),
     snd (run_simulations simulator uuid4 time_time self
            (take n parameter_list) data_folder st)).
Proof.
  induction n as [| n IH]; intros parameter_list st.
  - reflexivity.
  - destruct parameter_list as [| p rest]; [reflexivity |].
    cbn [next_n next take]. rewrite run_simulations_cons.
    destruct (run_one simulator uuid4 time_time self data_folder p st)
      as [[r | x] st1]; [| reflexivity].
    rewrite IH.
    destruct (run_simulations simulator uuid4 time_time self (take n rest)
                data_folder st1) as [[rs e] st2].
    reflexivity.
Qed.

Lemma read_text_other a s :
  Ascii.eqb a "013"%char = false ->
  read_text (String a s) = String a (read_text s).
Proof. intros H. cbn [read_text]. now rewrite H. Qed.

(** Text without a carriage return is read as it was written. *)
Lemma read_text_verbatim s :
  Py.str_in carriage_return s = false -> read_text s = s.
Proof.
  induction s as [| a s IH]; intros H; [reflexivity |].
  rewrite PyFacts.str_in_unfold in H.
  destruct (Py.startswith (String a s) carriage_return) eqn:Hhead;
    [discriminate |].
  assert (Ascii.eqb a "013"%char = false) as Ha.
  { destruct (Ascii.eqb_spec a "013"%char) as [-> | _]; [| reflexivity].
    unfold carriage_return in Hhead. simpl in Hhead. destruct s; discriminate. }
  rewrite (read_text_other a s Ha), IH by assumption. reflexivity.
Qed.

(** X10. The failure of a simulation whose output holds no carriage return
    carries what the process wrote, character for character, with the
    dictionary of the combination and the command that reproduces the
    run from the [waf] directory. *)
Theorem failure_carries_the_output_verbatim parameter st d :
  heap st !! parameter = Some d -> Dict.wf d = true ->
  let o := outcome_of simulator uuid4 self data_folder st d in
  (returncode o > 0)%Z ->
  Py.str_in carriage_return (stdout o) = false ->
  Py.str_in carriage_return (stderr o) = false ->
  fst (run_one simulator uuid4 time_time self data_folder parameter st)
  = Raise (SimulationError d (stderr o) (stdout o)
             ("./waf --run " +:+ quote +:+
              Py.join " " (script self :: tl (sp_argv
                 (spawn_of uuid4 self data_folder st d))) +:+ quote)).
Proof.
  intros Hd Hwf o Hrc Hout Herr.
  rewrite (RunnerFacts.run_one_eq simulator uuid4 time_time self data_folder
             parameter st d Hd Hwf). cbn [fst].
  destruct (RunnerFacts.result_of_cases simulator uuid4 time_time self
              data_folder st d) as [[_ H] | [Hle _]];
    fold o in H || fold o in Hle; [| lia].
  rewrite H, (read_text_verbatim _ Hout), (read_text_verbatim _ Herr).
  reflexivity.
Qed.





(** X12. Run directories are kept apart by their ids: when the ids drawn by
    a batch are plain names and differ from each other, the [stdout] and
    [stderr] files of the directory of every process started hold, at
    the end of the batch, what that process wrote; no later run has
    written over them. *)
Theorem captured_output_is_kept parameter_list :
  forall st rs e st',
    run_simulations simulator uuid4 time_time self parameter_list data_folder st
    = (rs, e, st') ->
    (forall i, (i < attempted rs e)%nat ->
       plain_name (uuid4 (uuids st + i)) = true) ->
    (forall i j, (i < j < attempted rs e)%nat ->
       uuid4 (uuids st + i) <> uuid4 (uuids st + j)) ->
    forall i sp,
      spawned st' !! (length (spawned st) + i)%nat = Some sp ->
      sp_cwd sp = OsPath.join data_folder (uuid4 (uuids st + i)) /\
      fs st' !! OsPath.join (sp_cwd sp) "stdout"
      = Some (File (stdout (simulator (length (spawned st) + i) sp))) /\
      fs st' !! OsPath.join (sp_cwd sp) "stderr"
      = Some (File (stderr (simulator (length (spawned st) + i) sp))).
Proof.
  induction parameter_list as [| p rest IH];
    intros st rs e st' Hrun Hplain Hdistinct i sp Hi.
  - simpl in Hrun. injection Hrun as <- <- <-.
    apply lookup_lt_Some in Hi. lia.
  - rewrite run_simulations_cons in Hrun.
    destruct (run_one_effects p st) as (Hu & _ & (sp0 & Hsp & Hcwd & Hfs) & _).
    set (temp_dir := OsPath.join data_folder (uuid4 (uuids st))) in *.
    assert (OsPath.join temp_dir "stderr" <> OsPath.join temp_dir "stdout")
      as Hdiff.
    { intros H. apply OsPathFacts.join_inj in H; [discriminate | reflexivity..]. }
    destruct (run_one simulator uuid4 time_time self data_folder p st)
      as [[r | x] st1]; cbn [fst snd] in *.
    + destruct (run_simulations simulator uuid4 time_time self rest
                  data_folder st1) as [[rs1 e1] st2] eqn:Hrec.
      injection Hrun as <- <- <-.
      assert (attempted (r :: rs1) e1 = S (attempted rs1 e1)) as Hatt
        by (unfold attempted; simpl; lia).
      rewrite Hatt in *.
      destruct (RunnerFacts.run_simulations_spawned simulator uuid4
                  time_time self data_folder rest st1) as (news & Hnews & _).
      rewrite Hrec in Hnews. cbn [snd] in Hnews.
      destruct i as [| i].
      * rewrite Nat.add_0_r in *. rewrite Hnews, Hsp in Hi.
        rewrite <- app_assoc in Hi.
        rewrite lookup_app_r, Nat.sub_diag in Hi by lia.
        injection Hi as <-. rewrite Hcwd. split; [reflexivity |].
        destruct (run_simulations_fs rest st1 rs1 e1 st2 Hrec) as [_ Hkeep].
        assert (forall j, (j < attempted rs1 e1)%nat ->
                  let temp_j := OsPath.join data_folder (uuid4 (uuids st1 + j)) in
                  (OsPath.join temp_dir "stdout" <> OsPath.join temp_j "stdout" /\
                   OsPath.join temp_dir "stdout" <> OsPath.join temp_j "stderr") /\
                  (OsPath.join temp_dir "stderr" <> OsPath.join temp_j "stdout" /\
                   OsPath.join temp_dir "stderr" <> OsPath.join temp_j "stderr"))
          as Hapart.
        { intros j Hj temp_j. subst temp_j temp_dir. rewrite Hu.
          replace (S (uuids st) + j)%nat with (uuids st + S j)%nat by lia.
          destruct (run_files_apart data_folder (uuid4 (uuids st))
                      (uuid4 (uuids st + S j))) as (H1 & H2 & H3).
          - specialize (Hplain 0%nat). rewrite Nat.add_0_r in Hplain.
            apply Hplain. lia.
          - apply Hplain. lia.
          - destruct H3 as [H3 H4].
            + specialize (Hdistinct 0%nat (S j)).
              rewrite Nat.add_0_r in Hdistinct. apply Hdistinct. lia.
            + auto. }
        rewrite !Nat.add_0_r. split; apply Hkeep.
        -- rewrite Hfs, lookup_insert_ne by exact Hdiff.
           apply lookup_insert_eq.
        -- intros j Hj. apply Hapart, Hj.
        -- rewrite Hfs. apply lookup_insert_eq.
        -- intros j Hj. apply Hapart, Hj.
      * assert (spawned st2 !! (length (spawned st1) + i)%nat = Some sp) as Hi1.
        { rewrite Hsp, length_app. cbn [length].
          now replace (length (spawned st) + 1 + i)%nat
            with (length (spawned st) + S i)%nat by lia. }
        destruct (IH st1 rs1 e1 st2 Hrec) with (i := i) (sp := sp)
          as (Hc & Hout & Herr); try assumption.
        -- intros j Hj. rewrite Hu.
           replace (S (uuids st) + j)%nat with (uuids st + S j)%nat by lia.
           apply Hplain. lia.
        -- intros j k Hjk. rewrite Hu.
           replace (S (uuids st) + j)%nat with (uuids st + S j)%nat by lia.
           replace (S (uuids st) + k)%nat with (uuids st + S k)%nat by lia.
           apply Hdistinct. lia.
        -- rewrite Hsp, length_app in Hout, Herr. cbn [length] in Hout, Herr.
           replace (length (spawned st) + 1 + i)%nat
             with (length (spawned st) + S i)%nat in Hout, Herr by lia.
           rewrite Hu in Hc.
           replace (S (uuids st) + i)%nat with (uuids st + S i)%nat in Hc by lia.
           auto.
    + injection Hrun as <- <- <-. rewrite Hsp in Hi.
      destruct i as [| i].
      * rewrite Nat.add_0_r in *.
        rewrite lookup_app_r, Nat.sub_diag in Hi by lia.
        injection Hi as <-. rewrite Hcwd. split; [reflexivity |].
        rewrite !Nat.add_0_r. split.
        -- rewrite Hfs, lookup_insert_ne by exact Hdiff.
           apply lookup_insert_eq.
        -- rewrite Hfs. apply lookup_insert_eq.
      * apply lookup_lt_Some in Hi. rewrite length_app in Hi.
        simpl in Hi. lia.
Qed.

End Oracles.
End RunnerExtra.

(** ** Parameter discovery on a help text of the usual shape *)

Module DiscoveryExtra.
Import Re Runner Help HelpFacts.


End DiscoveryExtra.

(** * The further properties at the concrete inputs *)

Module ExtraWitnesses.
Import Examples MoreExamples Runner Batch.

Lemma shortest_candidate_is_bound_witness :
  "foo" <> EmptyString /\
  Init.matches abspath "/ns-3" "foo" other_programs <> [] /\
  exists best l1 l2,
    Init.matches abspath "/ns-3" "foo" other_programs = l1 ++ best :: l2 /\
    Init.script_executable abspath "/ns-3" "foo" other_programs
    = Ok (abspath (OsPath.join "/ns-3" (Init.m_name best))) /\
    (forall m, In m l1 ->
       (Py.len (Init.m_name best) < Py.len (Init.m_name m))%nat) /\
    (forall m, In m l2 ->
       (Py.len (Init.m_name best) <= Py.len (Init.m_name m))%nat).
Proof.
  assert ("foo" <> EmptyString) as H1 by discriminate.
  assert (Init.matches abspath "/ns-3" "foo" other_programs <> []) as H2
    by (vm_compute; discriminate).
  split; [exact H1 |]. split; [exact H2 |].
  exact (InitExtra.shortest_candidate_is_bound abspath "/ns-3" "foo"
           other_programs H1 H2).
Defined.

Lemma exact_name_is_bound_witness :
  "foo" <> EmptyString /\ In "foo" other_programs /\
  Init.script_executable abspath "/ns-3" "foo" other_programs
  = Ok "/ns-3/foo".
Proof.
  assert ("foo" <> EmptyString) as H1 by discriminate.
  assert (In "foo" other_programs) as H2 by (simpl; tauto).
  split; [exact H1 |]. split; [exact H2 |].
  exact (InitExtra.exact_name_is_bound abspath "/ns-3" "foo" other_programs
           H1 H2).
Defined.

Lemma empty_script_binds_first_program_witness :
  Forall (fun program => program <> EmptyString) ("barfoo" :: ["foobar"; "foo"]) /\
  Init.script_executable abspath "/ns-3" EmptyString other_programs
  = Ok "/ns-3/barfoo".
Proof.
  assert (Forall (fun program => program <> EmptyString)
                 ("barfoo" :: ["foobar"; "foo"])) as H
    by (repeat constructor; discriminate).
  split; [exact H |].
  exact (InitExtra.empty_script_binds_first_program abspath "/ns-3" "barfoo"
           ["foobar"; "foo"] H).
Defined.

Lemma build_failure_aborts_construction_witness :
  "/ns-3" <> EmptyString /\
  (Build.bp_returncode build_failed > 0)%Z /\
  init abspath "/ns-3" "foo" true build_failed programs
  = Raise (CompilationError ("scratch/foo.cc:3: error" +:+ nl) EmptyString).
Proof.
  assert ("/ns-3" <> EmptyString) as H1 by discriminate.
  assert (Build.bp_returncode build_failed > 0)%Z as H2 by reflexivity.
  split; [exact H1 |]. split; [exact H2 |].
  exact (ConstructionExtra.build_failure_aborts_construction abspath "/ns-3"
           "foo" true build_failed programs H1 H2).
Defined.

Lemma progress_of_the_matching_lines_witness :
  Forall (fun output => Py.isascii output = true)
         (Build.bp_stdout build_ok) /\
  yielded (Build.get_build_output build_ok) = [(1%Z, 2%Z); (2%Z, 2%Z)] /\
  Build.parse_line ("Waf: Entering directory" +:+ nl) = None /\
  is_Some (Build.parse_line ("[2/2] Linking build/foo" +:+ nl)).
Proof.
  assert (Forall (fun output => Py.isascii output = true)
                 (Build.bp_stdout build_ok)) as H
    by (repeat constructor).
  split; [exact H |].
  destruct (BuildExtra.progress_of_the_matching_lines build_ok H)
    as (Hy & Hiff).
  split; [rewrite Hy; vm_compute; reflexivity |].
  split; [vm_compute; reflexivity |].
  apply Hiff; [simpl; tauto |].
  exists EmptyString, EmptyString, "2", "2", " Linking build/foo".
  split; [vm_compute; reflexivity |]. repeat split; simpl; lia.
Defined.

Lemma positive_returncode_raises_after_the_progress_witness :
  (Build.bp_returncode build_failed > 0)%Z /\
  yielded (Build.get_build_output build_failed) = [(1%Z, 2%Z)] /\
  raised (Build.get_build_output build_failed)
  = Some (CompilationError ("scratch/foo.cc:3: error" +:+ nl) EmptyString) /\
  Build.configure_and_build true build_failed
  = Raise (CompilationError ("scratch/foo.cc:3: error" +:+ nl) EmptyString).
Proof.
  assert (Build.bp_returncode build_failed > 0)%Z as H by reflexivity.
  split; [exact H |].
  destruct (BuildExtra.positive_returncode_raises_after_the_progress
              build_failed H) as (Hy & Hr & Hc).
  split; [rewrite Hy; vm_compute; reflexivity |].
  split; [exact Hr | exact Hc].
Defined.

Lemma progress_is_the_first_bracketed_pair_witness :
  Build.strip progress_line
  = EmptyString +:+ "[" +:+ " " +:+ "1" +:+ "/" +:+ "2" +:+ "]" +:+
    " Compiling scratch/foo.cc" /\
  Build.parse_line progress_line = Some (1%Z, 2%Z).
Proof.
  assert (Build.strip progress_line
          = EmptyString +:+ "[" +:+ " " +:+ "1" +:+ "/" +:+ "2" +:+ "]" +:+
            " Compiling scratch/foo.cc") as H by (vm_compute; reflexivity).
  split; [exact H |].
  exact (BuildExtra.progress_is_the_first_bracketed_pair progress_line
           EmptyString " " "1" "2" " Compiling scratch/foo.cc" H
           eq_refl eq_refl eq_refl (le_n 1) eq_refl (le_n 1)).
Defined.

Lemma result_ids_name_the_directories_witness :
  exists rs e st',
    run_simulations simulator_second_fails uuid4 time_time foo_runner
      batch "/data" store = (rs, e, st') /\
    attempted rs e = 2%nat /\
    uuids st' = 2%nat /\ ticks st' = 4%nat /\
    (forall sp, spawned st' !! 1%nat = Some sp -> sp_cwd sp = "/data/run-1") /\
    (forall r, rs !! 0%nat = Some r ->
       Dict.get "id" (r_meta r) = Some (MStr "run-0")).
Proof.
  destruct (run_simulations simulator_second_fails uuid4 time_time foo_runner
              batch "/data" store) as [[rs e] st'] eqn:Hrun.
  assert (attempted rs e = 2%nat) as Hn.
  { vm_compute in Hrun. injection Hrun as <- <- _. reflexivity. }
  destruct (RunnerExtra.result_ids_name_the_directories
              simulator_second_fails uuid4 time_time foo_runner "/data"
              batch store rs e st' Hrun)
    as (Hu & Ht & _ & Hcwd & Hmeta).
  exists rs, e, st'. split; [reflexivity |]. split; [exact Hn |].
  split; [rewrite Hu, Hn; reflexivity |].
  split; [rewrite Ht, Hn; reflexivity |].
  split.
  - intros sp Hsp. rewrite (Hcwd 1%nat sp Hsp). vm_compute. reflexivity.
  - intros r Hr. rewrite (Hmeta 0%nat r Hr). vm_compute. reflexivity.
Defined.


Lemma failure_carries_the_output_verbatim_witness :
  heap store !! 1%positive = Some combination1 /\
  Dict.wf combination1 = true /\
  (returncode (outcome_of simulator_fails uuid4 foo_runner "/data" store
                 combination1) > 0)%Z /\
  fst (run_one simulator_fails uuid4 time_time foo_runner "/data"
         1%positive store)
  = Raise (SimulationError combination1 ("abort" +:+ nl) ("started" +:+ nl)
             ("./waf --run " +:+ quote +:+
              "foo --nWifi=3 --verbose=False" +:+ quote)).
Proof.
  assert (heap store !! 1%positive = Some combination1) as H1
    by (vm_compute; reflexivity).
  assert (Dict.wf combination1 = true) as H2 by reflexivity.
  assert (returncode (outcome_of simulator_fails uuid4 foo_runner "/data"
                        store combination1) > 0)%Z as H3 by reflexivity.
  split; [exact H1 |]. split; [exact H2 |]. split; [exact H3 |].
  rewrite (RunnerExtra.failure_carries_the_output_verbatim
             simulator_fails uuid4 time_time foo_runner "/data" 1%positive
             store combination1 H1 H2 H3 eq_refl eq_refl).
  vm_compute. reflexivity.
Defined.

Lemma captured_output_is_kept_witness :
  exists rs e st',
    run_simulations simulator_ok uuid4 time_time foo_runner
      batch "/data" store = (rs, e, st') /\
    attempted rs e = 3%nat /\
    fs st' !! "/data/run-0/stdout" = Some (File ("done" +:+ nl)) /\
    fs st' !! "/data/run-2/stderr" = Some (File EmptyString).
Proof.
  destruct (run_simulations simulator_ok uuid4 time_time foo_runner
              batch "/data" store) as [[rs e] st'] eqn:Hrun.
  assert (attempted rs e = 3%nat /\
          exists sp0 sp2,
            spawned st' !! 0%nat = Some sp0 /\ spawned st' !! 2%nat = Some sp2)
    as (Hn & sp0 & sp2 & H0 & H2).
  { vm_compute in Hrun. injection Hrun as <- <- <-.
    split; [reflexivity |]. eexists _, _. split; reflexivity. }
  assert (forall i, (i < attempted rs e)%nat ->
            plain_name (uuid4 (uuids store + i)) = true) as Hplain.
  { rewrite Hn. intros [| [| [| i]]] Hi; [| | | lia]; vm_compute; reflexivity. }
  assert (forall i j, (i < j < attempted rs e)%nat ->
            uuid4 (uuids store + i) <> uuid4 (uuids store + j)) as Hdistinct.
  { rewrite Hn. intros [| [| [| i]]] [| [| [| j]]] Hij; try lia;
      vm_compute; discriminate. }
  pose proof (RunnerExtra.captured_output_is_kept
                simulator_ok uuid4 time_time foo_runner "/data"
                batch store rs e st' Hrun Hplain Hdistinct) as Hkept.
  exists rs, e, st'. split; [reflexivity |]. split; [exact Hn |].
  destruct (Hkept 0%nat sp0 H0) as (Hcwd0 & Hout0 & _).
  destruct (Hkept 2%nat sp2 H2) as (Hcwd2 & _ & Herr2).
  rewrite Hcwd0 in Hout0. rewrite Hcwd2 in Herr2.
  split; [exact Hout0 | exact Herr2].
Defined.


End ExtraWitnesses.
